(** * Cortex: the adaptive lesson loop and its SQLite store

    A shallow embedding of [app.py]: the three database functions
    ([get_or_create_user], [save_progress], [get_user_stats]), the agent
    functions built on the generative client, and the body of the main
    cycle that runs when a recorded answer arrives.

    Python exceptions are a [result]; the mutable world (the Streamlit
    session state and the database file) is threaded through a state monad
    in which a raised exception keeps the mutations made before it, as in
    Python.  What the outside world answers (the generative service, gTTS,
    the clock) is an [Env] of oracles given to each run. *)

From Stdlib Require Import ZArith List String Ascii Bool Lia.
From Stdlib Require Import DecimalString Sorted.
Import ListNotations.
Open Scope string_scope.
Open Scope Z_scope.

(** ** Python values

    The values that travel through the cycle come from [response.text] and
    from [json.loads]: [None], booleans, integers and strings.  The
    embedding stops there: floating point numbers, arrays and objects as
    field values (which [sqlite3] refuses to bind), and text that UTF-8
    cannot encode (a lone surrogate) are outside it, and every statement
    below is about the values inside it. *)

Inductive pyval : Type :=
| PNone
| PBool (b : bool)
| PInt (n : Z)
| PStr (s : string).

(** [str(n)] for an [int]. *)
Definition str_of_int (n : Z) : string := NilZero.string_of_int (Z.to_int n).

(** [str(v)], as an f-string field [{v}] formats it. *)
Definition py_str (v : pyval) : string :=
  match v with
  | PNone => "None"
  | PBool true => "True"
  | PBool false => "False"
  | PInt n => str_of_int n
  | PStr s => s
  end.

(** Truth value of [v] in [if v:]. *)
Definition truthy (v : pyval) : bool :=
  match v with
  | PNone => false
  | PBool b => b
  | PInt n => negb (n =? 0)
  | PStr s => negb (String.eqb s "")
  end.

(** [response.text] is a [str] or [None]. *)
Definition text_val (t : option string) : pyval :=
  match t with
  | Some s => PStr s
  | None => PNone
  end.

(** A value parsed by [json.loads]: an object, or anything else (array,
    string, number, [null]), on which a string subscript is a [TypeError]. *)
Inductive json : Type :=
| JObject (fields : list (string * pyval))
| JOther.

Fixpoint dict_get (k : string) (d : list (string * pyval)) : option pyval :=
  match d with
  | [] => None
  | (k', v) :: d' => if String.eqb k' k then Some v else dict_get k d'
  end.

(** ** Exceptions and the state monad *)

Inductive exn : Type :=
| KeyError (key : string)
| TypeError
| OperationalError      (* sqlite3: cannot open, no such table, database full *)
| IntegrityError        (* sqlite3: UNIQUE constraint failed *)
| OverflowError         (* Python int too large to convert to SQLite INTEGER *)
| DatabaseError         (* pandas.errors.DatabaseError: a statement run by pandas failed *)
| ClientError (msg : string)   (* raised by the generative client *)
| JSONDecodeError
| SpeechError (msg : string).  (* raised inside gTTS *)

Inductive result (A : Type) : Type :=
| Ok (a : A)
| Raise (e : exn).
Arguments Ok {A} a.
Arguments Raise {A} e.

Definition M (S A : Type) : Type := S -> result A * S.

Definition ret {S A} (a : A) : M S A := fun s => (Ok a, s).

Definition bind {S A B} (m : M S A) (k : A -> M S B) : M S B :=
  fun s =>
    match m s with
    | (Ok a, s') => k a s'
    | (Raise e, s') => (Raise e, s')
    end.

Definition raise {S A} (e : exn) : M S A := fun s => (Raise e, s).

Definition lift_result {S A} (r : result A) : M S A := fun s => (r, s).

Definition gets {S A} (f : S -> A) : M S A := fun s => (Ok (f s), s).

Definition modify {S} (f : S -> S) : M S unit := fun s => (Ok tt, f s).

(** [try: m  except: h] with a bare [except], which catches everything. *)
Definition try_except {S A} (m : M S A) (h : M S A) : M S A :=
  fun s =>
    match m s with
    | (Ok a, s') => (Ok a, s')
    | (Raise _, s') => h s'
    end.

Declare Scope monad_scope.
Delimit Scope monad_scope with monad.
Notation "x <- m ;; k" := (bind m (fun x => k))
  (at level 61, m at next level, right associativity) : monad_scope.
Notation "m ;;; k" := (bind m (fun _ => k))
  (at level 61, right associativity) : monad_scope.
Open Scope monad_scope.

(** ** The SQLite store

    [init_db] declares
    [users (id INTEGER PRIMARY KEY AUTOINCREMENT, name TEXT UNIQUE, created_at TEXT)]
    and
    [logs (id INTEGER PRIMARY KEY AUTOINCREMENT, user_id INTEGER, topic TEXT,
           difficulty TEXT, score INTEGER, timestamp TEXT)].
    The [logs] table declares no foreign key.  A table is the list of its
    rows in rowid order together with the counter SQLite keeps for an
    AUTOINCREMENT key.  A row of [logs] records the values as the INSERT
    statement bound them.  An integer or NULL bound for [score] and a text
    or NULL bound for [topic] or [difficulty] are stored as they are; the
    conversions of SQLite's column affinity for the other combinations (a
    text that spells a number bound for [score], a number bound for [topic]
    or [difficulty]) are not modelled. *)

Definition int64_min : Z := - 2 ^ 63.
Definition int64_max : Z := 2 ^ 63 - 1.

Definition in_int64 (n : Z) : bool := (int64_min <=? n) && (n <=? int64_max).

Inductive sqlval : Type :=
| SqlNull
| SqlInt (n : Z)
| SqlText (s : string).

(** How the [sqlite3] module binds a value of the embedding to a [?]
    parameter.  (The values left out differ: an array or an object is
    refused with [ProgrammingError], a text that cannot be encoded with
    [UnicodeEncodeError], a float is bound as a REAL.) *)
Definition sql_bind (v : pyval) : result sqlval :=
  match v with
  | PNone => Ok SqlNull
  | PBool b => Ok (SqlInt (if b then 1 else 0))
  | PInt n => if in_int64 n then Ok (SqlInt n) else Raise OverflowError
  | PStr s => Ok (SqlText s)
  end.

Record user_row : Type := mk_user
  { user_id : Z; user_name : string; created_at : string }.

Record log_row : Type := mk_log
  { log_id : Z; log_user_id : Z;
    log_topic : sqlval; log_difficulty : sqlval; log_score : sqlval;
    log_timestamp : string }.

Record Database : Type := mk_db
  { users : list user_row; users_seq : Z;
    logs : list log_row; logs_seq : Z }.

Definition empty_db : Database := mk_db [] 0 [] 0.

(** The database file ([None] before any table exists) and whether
    [sqlite3.connect(DB_FILE)] can open it.  A file that opens and then
    refuses a statement (locked, read-only, disk full) is not modelled. *)
Record Store : Type := mk_store
  { file : option Database; reachable : bool }.

Definition max_rowid (ids : list Z) : Z := fold_right Z.max 0 ids.

(** The rowid an AUTOINCREMENT key gives the next row: one more than the
    largest rowid the table ever held; SQLITE_FULL once that is the largest
    64-bit integer. *)
Definition next_rowid (seq : Z) (ids : list Z) : result Z :=
  let top := Z.max seq (max_rowid ids) in
  if top <? int64_max then Ok (top + 1) else Raise OperationalError.

(** [sqlite3.connect(DB_FILE)] followed by a statement on a table. *)
Definition open_db (st : Store) : result Database :=
  if reachable st then
    match file st with
    | Some db => Ok db
    | None => Raise OperationalError
    end
  else Raise OperationalError.

(** [conn.commit()]: the file takes the content the connection built. *)
Definition commit (db : Database) (st : Store) : Store :=
  mk_store (Some db) (reachable st).

Definition init_db : M Store unit := fun st =>
  if reachable st then
    match file st with
    | Some db => (Ok tt, st)
    | None => (Ok tt, commit empty_db st)
    end
  else (Raise OperationalError, st).

(** The test [name = ?] on a row of [users]. *)
Definition named (name : string) (r : user_row) : bool :=
  String.eqb (user_name r) name.

(** [SELECT id FROM users WHERE name = ?] and [fetchone()]. *)
Definition select_user_id (username : string) (db : Database) : option Z :=
  option_map user_id (find (named username) (users db)).

(** [INSERT INTO users (name, created_at) VALUES (?, ?)]; the result carries
    [c.lastrowid]. *)
Definition insert_user (username now : string) (db : Database)
  : result (Z * Database) :=
  if existsb (named username) (users db)
  then Raise IntegrityError
  else
    match next_rowid (users_seq db) (map user_id (users db)) with
    | Raise e => Raise e
    | Ok id =>
        Ok (id, mk_db (users db ++ [mk_user id username now]) id
                      (logs db) (logs_seq db))
    end.

Definition get_or_create_user (username now : string) : M Store Z := fun st =>
  match open_db st with
  | Raise e => (Raise e, st)
  | Ok db =>
      match select_user_id username db with
      | Some uid => (Ok uid, st)
      | None =>
          match insert_user username now db with
          | Raise e => (Raise e, st)
          | Ok (uid, db') => (Ok uid, commit db' st)
          end
      end
  end.

(** [INSERT INTO logs (user_id, topic, difficulty, score, timestamp)
     VALUES (?, ?, ?, ?, ?)]. *)
Definition insert_log (uid : Z) (topic difficulty score : pyval) (now : string)
    (db : Database) : result Database :=
  match sql_bind (PInt uid) with
  | Raise e => Raise e
  | Ok _ =>
  match sql_bind topic with
  | Raise e => Raise e
  | Ok t =>
  match sql_bind difficulty with
  | Raise e => Raise e
  | Ok d =>
  match sql_bind score with
  | Raise e => Raise e
  | Ok s =>
  match next_rowid (logs_seq db) (map log_id (logs db)) with
  | Raise e => Raise e
  | Ok id =>
      Ok (mk_db (users db) (users_seq db)
                (logs db ++ [mk_log id uid t d s now]) id)
  end end end end end.

Definition save_progress (uid : Z) (topic difficulty score : pyval)
    (now : string) : M Store unit := fun st =>
  match open_db st with
  | Raise e => (Raise e, st)
  | Ok db =>
      match insert_log uid topic difficulty score now db with
      | Raise e => (Raise e, st)
      | Ok db' => (Ok tt, commit db' st)
      end
  end.

(** A row of the SELECT of [get_user_stats], as SQLite hands it over. *)
Record stat_row : Type := mk_stat
  { stat_topic : sqlval; stat_score : sqlval; stat_timestamp : string }.

Definition stat_of_log (r : log_row) : stat_row :=
  mk_stat (log_topic r) (log_score r) (log_timestamp r).

(** [SELECT topic, score, timestamp FROM logs WHERE user_id = ?]: a scan of
    the table in rowid order. *)
Definition select_stats (uid : Z) (db : Database) : list stat_row :=
  map stat_of_log (filter (fun r => log_user_id r =? uid) (logs db)).

(** The value of a cell of the data frame pandas builds from the rows: a
    missing value ([None] in a column of objects, NaN in a column of
    floats), an integer, a float, or a text.  A float here always comes
    from an integer and is given by its value, which is an integer too. *)
Inductive frame_val : Type :=
| FMissing
| FInt (n : Z)
| FFloat (v : Z)
| FStr (s : string).

(** [float(n)]: the float64 nearest to the integer [n], ties to even.
    Integers below 2 to the 53 are floats as they are. *)
Definition float_of_int (n : Z) : Z :=
  let a := Z.abs n in
  if a <? 2 ^ 53 then n
  else
    let k := Z.log2 a - 52 in
    let q := Z.shiftr a k in
    let r := a - Z.shiftl q k in
    let half := 2 ^ (k - 1) in
    let q' := if (half <? r) || ((r =? half) && Z.odd q) then q + 1 else q in
    Z.sgn n * Z.shiftl q' k.

Definition is_null (c : sqlval) : bool :=
  match c with SqlNull => true | _ => false end.
Definition is_int (c : sqlval) : bool :=
  match c with SqlInt _ => true | _ => false end.
Definition is_text (c : sqlval) : bool :=
  match c with SqlText _ => true | _ => false end.

(** A cell kept as the Python object it is. *)
Definition as_object (c : sqlval) : frame_val :=
  match c with
  | SqlNull => FMissing
  | SqlInt n => FInt n
  | SqlText s => FStr s
  end.

(** A cell of a column that pandas made float64. *)
Definition as_float (c : sqlval) : frame_val :=
  match c with
  | SqlNull => FMissing
  | SqlInt n => FFloat (float_of_int n)
  | SqlText s => FStr s
  end.

(** How pandas converts the cells of one column ([coerce_float] is set and
    no dtype is given): a column with a text stays a column of objects;
    integers together with NULL become float64, NULL turning into NaN;
    integers alone are int64; NULL alone stays [None]. *)
Definition column_view (cells : list sqlval) : sqlval -> frame_val :=
  if existsb is_text cells then as_object
  else if existsb is_null cells && existsb is_int cells then as_float
  else as_object.

Record frame_row : Type := mk_frame_row
  { row_topic : frame_val; row_score : frame_val; row_timestamp : string }.

(** The data frame of [pd.read_sql_query], row by row; the timestamps are
    texts and stay so. *)
Definition to_frame (rows : list stat_row) : list frame_row :=
  map (fun r =>
         mk_frame_row (column_view (map stat_topic rows) (stat_topic r))
                      (column_view (map stat_score rows) (stat_score r))
                      (stat_timestamp r))
      rows.

(** [sqlite3.connect] raises on its own; what the statement raises inside
    [pd.read_sql_query] (no such table, a user id that does not bind)
    reaches the caller as pandas' [DatabaseError]. *)
Definition get_user_stats (uid : Z) : M Store (list frame_row) := fun st =>
  if reachable st then
    match file st, sql_bind (PInt uid) with
    | Some db, Ok _ => (Ok (to_frame (select_stats uid db)), st)
    | _, _ => (Raise DatabaseError, st)
    end
  else (Raise OperationalError, st).

(** ** The session and the outside world *)

Definition bytes : Type := list Byte.byte.

Record message : Type := mk_message { role : string; content : pyval }.

(** [st.session_state]. *)
Record SessionState : Type := mk_session
  { history : list message;
    current_topic : pyval;
    difficulty : pyval;
    mastery_score : pyval;
    last_audio : option bytes }.

(** The session state a new session starts with. *)
Definition initial_session : SessionState :=
  mk_session [] (PStr "Python Basics") (PStr "Beginner") (PInt 0) None.

Record World : Type := mk_world { session : SessionState; store : Store }.

(** What the collaborators answer during one run of the script:
    - [client]: whether an API key gave a client;
    - [generate_text p]: [response.text] for the text prompt [p];
    - [generate_from_audio b p]: [response.text] for audio [b] and prompt [p];
    - [generate_json p]: [json.loads(res.text)] for the reply to [p] asked
      in JSON mode ([JSONDecodeError] or [TypeError] when the text does not
      parse);
    - [gtts_mp3 t]: the buffer [gTTS(text=t, lang='en')] writes;
    - [clock]: [datetime.now().strftime("%Y-%m-%d %H:%M:%S")].
    A cycle sends each of its prompts once, and the evaluator's and the
    curriculum's prompts differ, so a function of the prompt describes the
    replies of a cycle. *)
Record Env : Type := mk_env
  { client : bool;
    generate_text : string -> result (option string);
    generate_from_audio : bytes -> string -> result (option string);
    generate_json : string -> result json;
    gtts_mp3 : pyval -> result bytes;
    clock : string }.

Definition set_history (h : list message) (s : SessionState) : SessionState :=
  mk_session h (current_topic s) (difficulty s) (mastery_score s) (last_audio s).
Definition set_current_topic (v : pyval) (s : SessionState) : SessionState :=
  mk_session (history s) v (difficulty s) (mastery_score s) (last_audio s).
Definition set_difficulty (v : pyval) (s : SessionState) : SessionState :=
  mk_session (history s) (current_topic s) v (mastery_score s) (last_audio s).
Definition set_mastery_score (v : pyval) (s : SessionState) : SessionState :=
  mk_session (history s) (current_topic s) (difficulty s) v (last_audio s).
Definition set_last_audio (a : option bytes) (s : SessionState) : SessionState :=
  mk_session (history s) (current_topic s) (difficulty s) (mastery_score s) a.

Definition on_session (f : SessionState -> SessionState) : M World unit :=
  modify (fun w => mk_world (f (session w)) (store w)).

(** A database function run on the world's store. *)
Definition on_store {A} (m : M Store A) : M World A := fun w =>
  let (r, st') := m (store w) in (r, mk_world (session w) st').

(** [st.session_state.history.append({"role": r, "content": c})]. *)
Definition history_append (r : string) (c : pyval) : M World unit :=
  on_session (fun s => set_history (history s ++ [mk_message r c]) s).

(** [d[k]] on a parsed JSON value. *)
Definition getitem {S} (d : json) (k : string) : M S pyval :=
  match d with
  | JObject fields =>
      match dict_get k fields with
      | Some v => ret v
      | None => raise (KeyError k)
      end
  | JOther => raise TypeError
  end.

(** ** Agent functions *)

Definition text_to_speech {S} (env : Env) (text : pyval) : M S (option bytes) :=
  try_except
    (buf <- lift_result (gtts_mp3 env text) ;;
     ret (Some buf))
    (ret None).

Definition transcribe_prompt : string :=
  "Transcribe this audio exactly. Output only the text.".

Definition transcribe_audio {S} (env : Env) (audio_bytes : bytes) : M S pyval :=
  text <- lift_result (generate_from_audio env audio_bytes transcribe_prompt) ;;
  ret (text_val text).

Definition tutor_prompt (topic difficulty : pyval) : string :=
  "Teach '" ++ py_str topic ++ "' (Level: " ++ py_str difficulty
  ++ "). Max 2 sentences. End with a question.".

Definition agent_tutor {S} (env : Env) (topic difficulty : pyval) : M S pyval :=
  text <- lift_result (generate_text env (tutor_prompt topic difficulty)) ;;
  ret (text_val text).

Definition evaluator_prompt (user_answer topic : pyval) : string :=
  "Topic: " ++ py_str topic ++ " | Answer: " ++ py_str user_answer
  ++ ". Output JSON: { 'score': 0-100, 'feedback': 'short text' }".

Definition agent_evaluator {S} (env : Env) (user_answer topic : pyval) : M S json :=
  lift_result (generate_json env (evaluator_prompt user_answer topic)).

Definition curriculum_prompt (last_score current_topic : pyval) : string :=
  "Score: " ++ py_str last_score ++ " on '" ++ py_str current_topic
  ++ "'. Suggest next topic/difficulty. JSON: { 'next_topic': '...', 'difficulty': '...' }".

Definition agent_curriculum {S} (env : Env) (last_score current_topic : pyval)
  : M S json :=
  lift_result (generate_json env (curriculum_prompt last_score current_topic)).

(** ** The script *)

(** Truth value of a list: [if not history] tests an empty list. *)
Definition list_truthy {A} (l : list A) : bool :=
  match l with
  | [] => false
  | _ :: _ => true
  end.

(** [f"({score}/100 - {eval_result['feedback']}) {new_lesson}"], with the
    feedback already looked up. *)
Definition full_resp (score feedback new_lesson : pyval) : string :=
  "(" ++ py_str score ++ "/100 - " ++ py_str feedback ++ ") "
  ++ py_str new_lesson.

(** The sidebar: login and the progress chart's data. *)
Definition sidebar (now username : string) : M World (option Z) :=
  if truthy (PStr username) then
    uid <- on_store (get_or_create_user username now) ;;
    _ <- on_store (get_user_stats uid) ;;
    ret (Some uid)
  else ret None.

(** The initial greeting. *)
Definition greeting (env : Env) : M World unit :=
  h <- gets (fun w => history (session w)) ;;
  if negb (list_truthy h) && client env then
    topic <- gets (fun w => current_topic (session w)) ;;
    level <- gets (fun w => difficulty (session w)) ;;
    lesson <- agent_tutor env topic level ;;
    history_append "assistant" lesson ;;;
    a <- text_to_speech env lesson ;;
    on_session (set_last_audio a)
  else ret tt.

(** The main cycle, from [if audio and client:] to [st.rerun()].  [audio]
    is the recorder's value ([None], or a recording with its bytes) and
    [user_id] the variable the sidebar set ([None], or a row id).
    [st.rerun()] ends the run of the script and starts the next one: here
    it is the return of the cycle. *)
Definition cycle (env : Env) (user_id : option Z) (audio : option bytes)
  : M World unit :=
  match audio with
  | Some audio_bytes =>
    if client env then
      user_text <- transcribe_audio env audio_bytes ;;
      if truthy user_text then
        history_append "user" user_text ;;;
        (* 1. Evaluate *)
        topic <- gets (fun w => current_topic (session w)) ;;
        eval_result <- agent_evaluator env user_text topic ;;
        score <- getitem eval_result "score" ;;
        on_session (set_mastery_score score) ;;;
        (* 2. SAVE TO DB *)
        match user_id with
        | Some uid =>
            if truthy (PInt uid) then
              topic <- gets (fun w => current_topic (session w)) ;;
              level <- gets (fun w => difficulty (session w)) ;;
              on_store (save_progress uid topic level score (clock env))
            else ret tt
        | None => ret tt
        end ;;;
        (* 3. Adapt *)
        topic <- gets (fun w => current_topic (session w)) ;;
        plan <- agent_curriculum env score topic ;;
        next_topic <- getitem plan "next_topic" ;;
        on_session (set_current_topic next_topic) ;;;
        next_level <- getitem plan "difficulty" ;;
        on_session (set_difficulty next_level) ;;;
        (* 4. Teach *)
        topic <- gets (fun w => current_topic (session w)) ;;
        level <- gets (fun w => difficulty (session w)) ;;
        new_lesson <- agent_tutor env topic level ;;
        feedback <- getitem eval_result "feedback" ;;
        let resp := PStr (full_resp score feedback new_lesson) in
        history_append "assistant" resp ;;;
        a <- text_to_speech env resp ;;
        on_session (set_last_audio a)
      else ret tt
    else ret tt
  | None => ret tt
  end.

(** One run of the script: tables, sidebar, greeting, cycle. *)
Definition script_run (env : Env) (login_time username : string)
    (audio : option bytes) : M World unit :=
  on_store init_db ;;;
  user_id <- sidebar login_time username ;;
  greeting env ;;;
  cycle env user_id audio.

(** ** Notions the statements use *)

(** The rows of [users] with a given name. *)
Definition rows_named (name : string) (db : Database) : list user_row :=
  filter (named name) (users db).

(** What the UNIQUE constraint on [users.name] keeps true of a file. *)
Definition names_unique (db : Database) : Prop :=
  NoDup (map user_name (users db)).

Definition store_names_unique (st : Store) : Prop :=
  match file st with
  | Some db => names_unique db
  | None => True
  end.

(** The rows of [logs] in a store. *)
Definition logs_of (st : Store) : list log_row :=
  match file st with
  | Some db => logs db
  | None => []
  end.

(** Whether the AUTOINCREMENT key of [logs] can still grow. *)
Definition logs_have_room (db : Database) : Prop :=
  Z.max (logs_seq db) (max_rowid (map log_id (logs db))) < int64_max.

Definition users_have_room (db : Database) : Prop :=
  Z.max (users_seq db) (max_rowid (map user_id (users db))) < int64_max.

(** Logging in again with the same name, once per element of [nows]. *)
Fixpoint login_again (username : string) (nows : list string) : M Store (list Z) :=
  match nows with
  | [] => ret []
  | now :: rest =>
      uid <- get_or_create_user username now ;;
      uids <- login_again username rest ;;
      ret (uid :: uids)
  end.










(** *** The answers of the collaborators in a cycle *)

(** The transcription request returned the usable text [heard]. *)
Definition transcribed (env : Env) (b : bytes) (heard : pyval) : Prop :=
  client env = true
  /\ (exists t, generate_from_audio env b transcribe_prompt = Ok t
                /\ heard = text_val t)
  /\ truthy heard = true.

(** The evaluator answered the object [ev], whose score is [score]. *)
Definition graded (env : Env) (heard topic : pyval)
    (ev : list (string * pyval)) (score : pyval) : Prop :=
  generate_json env (evaluator_prompt heard topic) = Ok (JObject ev)
  /\ dict_get "score" ev = Some score.

(** The curriculum answered an object with both of its keys. *)
Definition planned (env : Env) (score topic next_topic next_level : pyval) : Prop :=
  exists plan,
    generate_json env (curriculum_prompt score topic) = Ok (JObject plan)
    /\ dict_get "next_topic" plan = Some next_topic
    /\ dict_get "difficulty" plan = Some next_level.

(** The tutor answered [lesson]. *)
Definition taught (env : Env) (topic level lesson : pyval) : Prop :=
  exists t, generate_text env (tutor_prompt topic level) = Ok t
            /\ lesson = text_val t.

(** [r[k]] for the outcome [r] of a JSON request: what the request raised,
    or what the subscript gives or raises. *)
Definition subscript (r : result json) (k : string) : result pyval :=
  match r with
  | Raise e => Raise e
  | Ok JOther => Raise TypeError
  | Ok (JObject fields) =>
      match dict_get k fields with
      | Some v => Ok v
      | None => Raise (KeyError k)
      end
  end.

(** The evaluation raises [e]: in the request, or at [eval_result["score"]]. *)
Definition evaluation_fails (env : Env) (heard topic : pyval) (e : exn) : Prop :=
  subscript (generate_json env (evaluator_prompt heard topic)) "score" = Raise e.

(** The curriculum step raises [e]: in the request or at [plan["next_topic"]]. *)
Definition curriculum_fails (env : Env) (score topic : pyval) (e : exn) : Prop :=
  subscript (generate_json env (curriculum_prompt score topic)) "next_topic"
    = Raise e.

(** The plan has a next topic and [plan["difficulty"]] raises [e]. *)
Definition level_missing (env : Env) (score topic next_topic : pyval) (e : exn)
  : Prop :=
  subscript (generate_json env (curriculum_prompt score topic)) "next_topic"
    = Ok next_topic
  /\ subscript (generate_json env (curriculum_prompt score topic)) "difficulty"
    = Raise e.

(** What step 2 of the cycle does with the store of [w]: nothing without a
    user id, [save_progress] with one. *)
Definition persisted (env : Env) (user_id : option Z) (score : pyval) (w : World)
    (r : result unit) (st' : Store) : Prop :=
  match user_id with
  | Some uid =>
      if truthy (PInt uid)
      then save_progress uid (current_topic (session w)) (difficulty (session w))
                         score (clock env) (store w) = (r, st')
      else r = Ok tt /\ st' = store w
  | None => r = Ok tt /\ st' = store w
  end.

Definition learner_turn (heard : pyval) : message := mk_message "user" heard.

Definition tutor_turn (score feedback lesson : pyval) : message :=
  mk_message "assistant" (PStr (full_resp score feedback lesson)).

(** The world once the learner's turn is in the history. *)
Definition answered (w : World) (heard : pyval) : World :=
  mk_world (set_history (history (session w) ++ [learner_turn heard]) (session w))
           (store w).

(** The world once the score is set, with store [st']. *)
Definition scored (w : World) (heard score : pyval) (st' : Store) : World :=
  mk_world (set_mastery_score score (session (answered w heard))) st'.

(** The world once the next topic and then the next difficulty are set. *)
Definition retargeted (w : World) (heard score next_topic : pyval)
    (st' : Store) : World :=
  mk_world (set_current_topic next_topic (session (scored w heard score st'))) st'.

Definition adapted (w : World) (heard score next_topic next_level : pyval)
    (st' : Store) : World :=
  mk_world (set_difficulty next_level
              (session (retargeted w heard score next_topic st'))) st'.

(** The world at the end of a cycle that ran through. *)
Definition completed (w : World) (heard score feedback next_topic next_level
    lesson : pyval) (audio : option bytes) (st' : Store) : World :=
  mk_world
    (mk_session
       (history (session w)
        ++ [learner_turn heard; tutor_turn score feedback lesson])
       next_topic next_level score audio)
    st'.

(** A stored score that respects the range 0 to 100. *)
Definition score_in_range (v : sqlval) : bool :=
  match v with
  | SqlInt n => (0 <=? n) && (n <=? 100)
  | _ => false
  end.

(** ** Scenarios

    Concrete collaborators and worlds on which the functions are run. *)

(** Collaborators with fixed answers: [heard] to the transcription request,
    [evaluation] to the evaluator's prompt (the one that starts with
    [Topic: ]), [plan] to the curriculum's prompt, [lesson] to the tutor's
    prompt and [speech] from gTTS. *)
Definition fixed_env (heard : result (option string)) (evaluation plan : result json)
    (lesson : result (option string)) (speech : result bytes) (now : string) : Env :=
  mk_env true
    (fun _ => lesson)
    (fun _ _ => heard)
    (fun p => if String.prefix "Topic: " p then evaluation else plan)
    (fun _ => speech)
    now.

Definition eval_reply (score : Z) (feedback : string) : json :=
  JObject [("score", PInt score); ("feedback", PStr feedback)].

Definition plan_reply (next_topic level : string) : json :=
  JObject [("next_topic", PStr next_topic); ("difficulty", PStr level)].

Definition mp3_bytes : bytes := [Byte.x49; Byte.x44; Byte.x33].

(** The recorded answer. *)
Definition recording : bytes := [Byte.x52; Byte.x49; Byte.x46; Byte.x46].

Definition loops_lesson : string :=
  "A loop repeats a block of code. What does a for loop iterate over?".

(** The end-to-end scenario of the specification, for a given score. *)
Definition scenario_env (score : Z) : Env :=
  fixed_env (Ok (Some "A variable stores a value"))
            (Ok (eval_reply score "Good"))
            (Ok (plan_reply "Loops" "Intermediate"))
            (Ok (Some loops_lesson))
            (Ok mp3_bytes)
            "2024-05-01 10:00:00".

Definition first_lesson : message :=
  mk_message "assistant" (PStr "A variable names a value. What does x = 1 do?").

(** The session after the initial greeting. *)
Definition greeted_session : SessionState :=
  mk_session [first_lesson] (PStr "Python Basics") (PStr "Beginner") (PInt 0)
             (Some mp3_bytes).

(** The database after the user Student logged in. *)
Definition student_db : Database :=
  mk_db [mk_user 1 "Student" "2024-05-01 09:59:00"] 1 [] 0.

Definition student_world : World :=
  mk_world greeted_session (mk_store (Some student_db) true).

(** The same world when the database cannot be opened. *)
Definition offline_world : World :=
  mk_world greeted_session (mk_store (Some student_db) false).


(** The scenario with an evaluator whose reply does not parse. *)
Definition broken_evaluator_env : Env :=
  fixed_env (Ok (Some "A variable stores a value"))
            (Raise JSONDecodeError)
            (Ok (plan_reply "Loops" "Intermediate"))
            (Ok (Some loops_lesson))
            (Ok mp3_bytes)
            "2024-05-01 10:00:00".

(** The scenario with a speech synthesiser that fails. *)
Definition mute_env : Env :=
  fixed_env (Ok (Some "A variable stores a value"))
            (Ok (eval_reply 80 "Good"))
            (Ok (plan_reply "Loops" "Intermediate"))
            (Ok (Some loops_lesson))
            (Raise (SpeechError "connection refused"))
            "2024-05-01 10:00:00".

(** The scenario with a recorder that picked up silence. *)
Definition silent_env : Env :=
  fixed_env (Ok (Some ""))
            (Ok (eval_reply 80 "Good"))
            (Ok (plan_reply "Loops" "Intermediate"))
            (Ok (Some loops_lesson))
            (Ok mp3_bytes)
            "2024-05-01 10:00:00".

Definition answer_heard : pyval := PStr "A variable stores a value".

(** A database in which nobody is registered. *)
Definition nobody_store : Store := mk_store (Some empty_db) true.

Definition student_store : Store := mk_store (Some student_db) true.



(** ** Notions for the whole script *)

(** The keys of [users]: ids are distinct, at least 1 and at most the
    counter of the table, which fits in 64 bits. *)
Definition users_keyed (db : Database) : Prop :=
  NoDup (map user_id (users db))
  /\ Forall (fun r => 1 <= user_id r <= users_seq db) (users db)
  /\ 0 <= users_seq db <= int64_max.

(** The keys of [logs]: ids grow along the table. *)
Definition logs_keyed (db : Database) : Prop :=
  StronglySorted Z.lt (map log_id (logs db))
  /\ Forall (fun r => 1 <= log_id r <= logs_seq db) (logs db)
  /\ 0 <= logs_seq db <= int64_max.

(** A database as the schema and the AUTOINCREMENT keys keep it. *)
Definition db_wf (db : Database) : Prop :=
  names_unique db /\ users_keyed db /\ logs_keyed db.

Definition store_wf (st : Store) : Prop :=
  match file st with
  | Some db => db_wf db
  | None => True
  end.

(** Every row of [logs] carries the id of a row of [users]. *)
Definition logs_reference_users (db : Database) : Prop :=
  Forall (fun r => In (log_user_id r) (map user_id (users db))) (logs db).

Definition store_references (st : Store) : Prop :=
  match file st with
  | Some db => logs_reference_users db
  | None => True
  end.

(** The rows of [users] in a store. *)
Definition users_of (st : Store) : list user_row :=
  match file st with
  | Some db => users db
  | None => []
  end.

(** The values [sqlite3] can bind: everything but an integer outside the
    64-bit range. *)
Definition bindable (v : pyval) : bool :=
  match v with
  | PInt n => in_int64 n
  | _ => true
  end.

(** What [text_to_speech] leaves in [last_audio] for a text. *)
Definition spoken (env : Env) (text : pyval) : option bytes :=
  match gtts_mp3 env text with
  | Ok buf => Some buf
  | Raise _ => None
  end.

(** The same collaborators with another speech synthesiser. *)
Definition with_speech (g : pyval -> result bytes) (env : Env) : Env :=
  mk_env (client env) (generate_text env) (generate_from_audio env)
         (generate_json env) g (clock env).

(** The ways the cycle ends for a recording [b] when a client exists: the
    statement that raised, or the guard that skipped the body, or the end
    of the body, each with the world it leaves. *)
Inductive cycle_ends (env : Env) (user_id : option Z) (b : bytes) (w : World)
  : result unit -> World -> Prop :=
| ends_at_transcription e :
    generate_from_audio env b transcribe_prompt = Raise e ->
    cycle_ends env user_id b w (Raise e) w
| ends_without_text t :
    generate_from_audio env b transcribe_prompt = Ok t ->
    truthy (text_val t) = false ->
    cycle_ends env user_id b w (Ok tt) w
| ends_at_evaluation heard e :
    transcribed env b heard ->
    evaluation_fails env heard (current_topic (session w)) e ->
    cycle_ends env user_id b w (Raise e) (answered w heard)
| ends_at_save heard ev score e st' :
    transcribed env b heard ->
    graded env heard (current_topic (session w)) ev score ->
    persisted env user_id score w (Raise e) st' ->
    cycle_ends env user_id b w (Raise e) (scored w heard score st')
| ends_at_curriculum heard ev score st' e :
    transcribed env b heard ->
    graded env heard (current_topic (session w)) ev score ->
    persisted env user_id score w (Ok tt) st' ->
    curriculum_fails env score (current_topic (session w)) e ->
    cycle_ends env user_id b w (Raise e) (scored w heard score st')
| ends_at_level heard ev score st' next_topic e :
    transcribed env b heard ->
    graded env heard (current_topic (session w)) ev score ->
    persisted env user_id score w (Ok tt) st' ->
    level_missing env score (current_topic (session w)) next_topic e ->
    cycle_ends env user_id b w (Raise e)
               (retargeted w heard score next_topic st')
| ends_at_lesson heard ev score st' next_topic next_level e :
    transcribed env b heard ->
    graded env heard (current_topic (session w)) ev score ->
    persisted env user_id score w (Ok tt) st' ->
    planned env score (current_topic (session w)) next_topic next_level ->
    generate_text env (tutor_prompt next_topic next_level) = Raise e ->
    cycle_ends env user_id b w (Raise e)
               (adapted w heard score next_topic next_level st')
| ends_at_feedback heard ev score st' next_topic next_level lesson :
    transcribed env b heard ->
    graded env heard (current_topic (session w)) ev score ->
    persisted env user_id score w (Ok tt) st' ->
    planned env score (current_topic (session w)) next_topic next_level ->
    taught env next_topic next_level lesson ->
    dict_get "feedback" ev = None ->
    cycle_ends env user_id b w (Raise (KeyError "feedback"))
               (adapted w heard score next_topic next_level st')
| ends_complete heard ev score st' next_topic next_level lesson feedback :
    transcribed env b heard ->
    graded env heard (current_topic (session w)) ev score ->
    persisted env user_id score w (Ok tt) st' ->
    planned env score (current_topic (session w)) next_topic next_level ->
    taught env next_topic next_level lesson ->
    dict_get "feedback" ev = Some feedback ->
    cycle_ends env user_id b w (Ok tt)
               (completed w heard score feedback next_topic next_level lesson
                  (spoken env (PStr (full_resp score feedback lesson))) st').

(** [grows st st']: from [st] to [st'] rows were only added, at the end of
    their tables, and the store is as reachable as it was. *)
Definition grows (st st' : Store) : Prop :=
  reachable st' = reachable st
  /\ (exists us, users_of st' = (users_of st ++ us)%list)
  /\ (exists ls, logs_of st' = (logs_of st ++ ls)%list).

(** The store of a world is well formed and its entries reference users. *)
Definition sound (w : World) : Prop :=
  store_wf (store w) /\ store_references (store w).

(** [establishes pre m post inv]: run from a world with [pre], [m] returns
    [a] in a world with [post a], or raises in a world with [inv]. *)
Definition establishes {A} (pre : World -> Prop) (m : M World A)
    (post : A -> World -> Prop) (inv : World -> Prop) : Prop :=
  forall w, pre w ->
    match m w with
    | (Ok a, w') => post a w'
    | (Raise _, w') => inv w'
    end.

(** What every step of a run that started on the store [st0] keeps: a
    sound store that grew from [st0]. *)
Definition kept (st0 : Store) (w : World) : Prop :=
  sound w /\ grows st0 (store w).

Definition user_id_of_row (r : user_row) : Z := user_id r.

(** The user id the sidebar set is the id of a row of [users]. *)
Definition logged_in (user_id : option Z) (w : World) : Prop :=
  forall uid, user_id = Some uid ->
    In uid (map user_id_of_row (users_of (store w))).

(** A database with two users and entries of both. *)
Definition class_db : Database :=
  mk_db [ mk_user 1 "Student" "2024-05-01 09:59:00";
          mk_user 2 "Ada" "2024-05-01 10:00:10" ] 2
        [ mk_log 1 1 (SqlText "Python Basics") (SqlText "Beginner") (SqlInt 80)
                 "2024-05-01 10:00:00";
          mk_log 2 2 (SqlText "Python Basics") (SqlText "Beginner") (SqlInt 35)
                 "2024-05-01 10:00:30" ] 2.

Definition class_store : Store := mk_store (Some class_db) true.

(** The scenario with a curriculum that names a topic and no difficulty. *)
Definition topic_only_env : Env :=
  fixed_env (Ok (Some "A variable stores a value"))
            (Ok (eval_reply 80 "Good"))
            (Ok (JObject [("next_topic", PStr "Loops")]))
            (Ok (Some loops_lesson))
            (Ok mp3_bytes)
            "2024-05-01 10:00:00".

(** The scenario with an evaluator that gives a score and no feedback. *)
Definition score_only_env : Env :=
  fixed_env (Ok (Some "A variable stores a value"))
            (Ok (JObject [("score", PInt 80)]))
            (Ok (plan_reply "Loops" "Intermediate"))
            (Ok (Some loops_lesson))
            (Ok mp3_bytes)
            "2024-05-01 10:00:00".

(** A new session on a database file that does not exist yet. *)
Definition new_world : World :=
  mk_world initial_session (mk_store None true).

(* ================================================================== *)
(** * Properties *)

Example str_of_int_80 : str_of_int 80 = "80".
Proof. reflexivity. Qed.

Example str_of_int_neg : str_of_int (-5) = "-5".
Proof. reflexivity. Qed.

Example str_of_int_zero : str_of_int 0 = "0".
Proof. reflexivity. Qed.

(** ** The store *)

Lemma open_db_inv st db :
  open_db st = Ok db -> reachable st = true /\ file st = Some db.
Proof.
  unfold open_db. destruct (reachable st); [|discriminate].
  destruct (file st); [|discriminate]. intros H; inversion H; auto.
Qed.

Lemma open_db_commit db st :
  reachable st = true -> open_db (commit db st) = Ok db.
Proof. unfold open_db, commit; simpl. intros ->. reflexivity. Qed.

Lemma open_db_unreachable st :
  reachable st = false -> open_db st = Raise OperationalError.
Proof. unfold open_db. intros ->. reflexivity. Qed.

Lemma find_none_app {A} (p : A -> bool) l x :
  find p l = None -> p x = true -> find p (l ++ [x]) = Some x.
Proof.
  induction l as [|a l IH]; simpl; intros Hn Hx.
  - rewrite Hx. reflexivity.
  - destruct (p a); [discriminate|]. auto.
Qed.

Lemma find_none_existsb {A} (p : A -> bool) l :
  find p l = None -> existsb p l = false.
Proof.
  induction l as [|a l IH]; simpl; auto.
  destruct (p a); [discriminate|]. auto.
Qed.

Lemma find_some_named name l r :
  find (named name) l = Some r ->
  In r l /\ user_name r = name.
Proof.
  intros H. apply find_some in H. destruct H as [Hin Heq].
  apply String.eqb_eq in Heq. auto.
Qed.

Lemma in_names_find name l :
  In name (map user_name l) ->
  exists r, find (named name) l = Some r.
Proof.
  unfold named. induction l as [|a l IH]; simpl; [tauto|].
  intros [H|H].
  - subst. rewrite String.eqb_refl. eauto.
  - destruct (String.eqb (user_name a) name); eauto.
Qed.

(** Under unique names at most one row carries a given name. *)
Lemma unique_names_one_row name l :
  NoDup (map user_name l) ->
  (List.length (filter (named name) l) <= 1)%nat.
Proof.
  unfold named. induction l as [|a l IH]; simpl; intros Hnd; [lia|].
  inversion Hnd as [|? ? Hnotin Hnd']; subst.
  destruct (String.eqb (user_name a) name) eqn:E.
  - apply String.eqb_eq in E. subst name.
    assert (Hnone : filter (fun r => String.eqb (user_name r) (user_name a)) l = []).
    { clear -Hnotin. induction l as [|b l IH]; simpl; auto.
      destruct (String.eqb (user_name b) (user_name a)) eqn:E.
      - apply String.eqb_eq in E. exfalso. apply Hnotin. simpl. auto.
      - apply IH. intros H. apply Hnotin. simpl. auto. }
    rewrite Hnone. simpl. lia.
  - auto.
Qed.

Lemma find_some_filter_nonempty {A} (p : A -> bool) l r :
  find p l = Some r -> (1 <= List.length (filter p l))%nat.
Proof.
  induction l as [|a l IH]; simpl; [discriminate|].
  destruct (p a); simpl; intros H; [lia|auto].
Qed.

(** *** Logging in *)

Lemma get_or_create_user_found name now st db r :
  open_db st = Ok db ->
  find (named name) (users db) = Some r ->
  get_or_create_user name now st = (Ok (user_id r), st).
Proof.
  intros Ho Hf. unfold get_or_create_user, select_user_id.
  rewrite Ho. rewrite Hf. reflexivity.
Qed.

Lemma get_or_create_user_new name now st db :
  open_db st = Ok db ->
  find (named name) (users db) = None ->
  users_have_room db ->
  let id := Z.max (users_seq db) (max_rowid (map user_id (users db))) + 1 in
  get_or_create_user name now st =
    (Ok id, commit (mk_db (users db ++ [mk_user id name now]) id
                          (logs db) (logs_seq db)) st).
Proof.
  intros Ho Hf Hroom. unfold get_or_create_user, select_user_id, insert_user.
  rewrite Ho. rewrite Hf. simpl.
  rewrite (find_none_existsb _ _ Hf).
  unfold next_rowid. unfold users_have_room in Hroom.
  apply Z.ltb_lt in Hroom. rewrite Hroom. reflexivity.
Qed.

(** Every way [get_or_create_user] returns. *)
Lemma get_or_create_user_returns name now st uid st' :
  get_or_create_user name now st = (Ok uid, st') ->
  exists db, open_db st = Ok db /\
    ((exists r, find (named name) (users db) = Some r /\
                uid = user_id r /\ st' = st)
     \/ (find (named name) (users db) = None /\
         st' = commit (mk_db (users db ++ [mk_user uid name now]) uid
                             (logs db) (logs_seq db)) st)).
Proof.
  unfold get_or_create_user, select_user_id, insert_user.
  destruct (open_db st) as [db|e] eqn:Ho; [|discriminate].
  destruct (find (named name) (users db)) as [r|] eqn:Hf; simpl.
  - intros H; inversion H; subst. exists db. split; auto. left. eauto.
  - rewrite (find_none_existsb _ _ Hf).
    destruct (next_rowid (users_seq db) (map user_id (users db))) as [id|e];
      [|discriminate].
    intros H; inversion H; subst. exists db. split; auto.
Qed.

(** After a login that returned, the row of that name is there to be found. *)
Lemma get_or_create_user_registered name now st uid st' :
  get_or_create_user name now st = (Ok uid, st') ->
  exists db' r, open_db st' = Ok db' /\
    find (named name) (users db') = Some r /\ user_id r = uid.
Proof.
  intros H. apply get_or_create_user_returns in H.
  destruct H as (db & Ho & [(r & Hf & -> & ->)|(Hf & ->)]).
  - exists db, r. auto.
  - destruct (open_db_inv _ _ Ho) as [Hr _].
    eexists; eexists. split; [apply open_db_commit; exact Hr|].
    simpl. split.
    + apply find_none_app; [exact Hf|]. unfold named; simpl.
      apply String.eqb_refl.
    + reflexivity.
Qed.

Lemma login_again_same name uid st db r nows :
  open_db st = Ok db ->
  find (named name) (users db) = Some r -> user_id r = uid ->
  login_again name nows st = (Ok (repeat uid (List.length nows)), st).
Proof.
  intros Ho Hf Hid. induction nows as [|now rest IH]; simpl; [reflexivity|].
  unfold bind. rewrite (get_or_create_user_found _ _ _ _ _ Ho Hf).
  rewrite IH. rewrite Hid. reflexivity.
Qed.

Lemma names_unique_insert name now id db :
  find (named name) (users db) = None ->
  names_unique db ->
  names_unique (mk_db (users db ++ [mk_user id name now]) id
                      (logs db) (logs_seq db)).
Proof.
  unfold names_unique; simpl. intros Hf Hnd.
  rewrite map_app; simpl.
  assert (Hnotin : ~ In name (map user_name (users db))).
  { intros Hin. apply in_names_find in Hin. destruct Hin as [r Hr].
    rewrite Hf in Hr. discriminate. }
  clear Hf. induction (users db) as [|a l IH]; simpl in *.
  - constructor; [tauto|constructor].
  - inversion Hnd; subst. constructor.
    + rewrite in_app_iff. simpl. intros [H|[H|[]]]; [tauto|].
      apply Hnotin. auto.
    + apply IH; auto.
Qed.

(** The store functions keep the names of [users] unique. *)
Lemma init_db_keeps_names_unique st :
  store_names_unique st -> store_names_unique (snd (init_db st)).
Proof.
  unfold init_db, store_names_unique. destruct (reachable st); simpl; auto.
  destruct (file st) eqn:Hf; simpl; [rewrite Hf; auto|].
  intros _. unfold names_unique; simpl. constructor.
Qed.

Lemma get_or_create_user_keeps_names_unique name now st :
  store_names_unique st ->
  store_names_unique (snd (get_or_create_user name now st)).
Proof.
  intros Hu.
  destruct (get_or_create_user name now st) as [[uid|e] st'] eqn:Hcall; simpl.
  - apply get_or_create_user_returns in Hcall.
    destruct Hcall as (db & Ho & [(r & _ & _ & ->)|(Hf & ->)]); [exact Hu|].
    destruct (open_db_inv _ _ Ho) as [_ Hfile].
    unfold store_names_unique in *. rewrite Hfile in Hu. simpl.
    apply names_unique_insert; assumption.
  - revert Hcall. unfold get_or_create_user.
    destruct (open_db st) as [db|e0]; [|intros H; inversion H; subst; exact Hu].
    destruct (select_user_id name db); [discriminate|].
    destruct (insert_user name now db) as [[uid db']|e1];
      intros H; inversion H; subst; exact Hu.
Qed.

(** [C4] Repeated sequential calls of [get_or_create_user] with one name
    return one id.  On a store that opens, the call returns when the name is
    registered or the key of [users] can still grow.  Whenever a call
    returns [uid], every later call with that name returns [uid] and leaves
    the store as it is (no row is created), the row of that name and id is
    in [users], and, names being unique in the file before, exactly one row
    carries the name afterwards. *)
Theorem get_or_create_user_idempotent (name : string) (st : Store) :
  (forall db now, open_db st = Ok db ->
     In name (map user_name (users db)) \/ users_have_room db ->
     exists uid st', get_or_create_user name now st = (Ok uid, st'))
  /\
  (forall now uid st',
     get_or_create_user name now st = (Ok uid, st') ->
     (forall nows,
        login_again name nows st' = (Ok (repeat uid (List.length nows)), st'))
     /\ exists db',
          file st' = Some db'
          /\ (exists r, In r (users db') /\ user_name r = name /\ user_id r = uid)
          /\ (store_names_unique st ->
              names_unique db' /\ List.length (rows_named name db') = 1%nat)).
Proof.
  split.
  - intros db now Ho Hcase.
    destruct (find (named name) (users db)) as [r|] eqn:Hf.
    + eexists; eexists. eapply get_or_create_user_found; eauto.
    + destruct Hcase as [Hin|Hroom].
      * apply in_names_find in Hin. destruct Hin as [r Hr].
        rewrite Hf in Hr. discriminate.
      * eexists; eexists. eapply get_or_create_user_new; eauto.
  - intros now uid st' Hcall. split.
    + intros nows.
      destruct (get_or_create_user_registered _ _ _ _ _ Hcall)
        as (db' & r & Ho' & Hf' & Hid).
      eapply login_again_same; eauto.
    + destruct (get_or_create_user_registered _ _ _ _ _ Hcall)
        as (db' & r & Ho' & Hf' & Hid).
      destruct (open_db_inv _ _ Ho') as [_ Hfile'].
      exists db'. split; [exact Hfile'|]. split.
      * exists r. destruct (find_some_named _ _ _ Hf') as [Hin Hn]. auto.
      * intros Huniq.
        assert (Hu' : names_unique db').
        { apply get_or_create_user_returns in Hcall.
          destruct Hcall as (db & Ho & [(r0 & Hf & _ & ->)|(Hf & ->)]).
          - destruct (open_db_inv _ _ Ho) as [_ Hfile].
            unfold store_names_unique in Huniq. rewrite Hfile in Huniq.
            rewrite Hfile in Hfile'. inversion Hfile'; subst. exact Huniq.
          - destruct (open_db_inv _ _ Ho) as [_ Hfile].
            unfold store_names_unique in Huniq. rewrite Hfile in Huniq.
            simpl in Hfile'. inversion Hfile'; subst.
            apply names_unique_insert; assumption. }
        split; [exact Hu'|].
        pose proof (unique_names_one_row name _ Hu') as Hle.
        pose proof (find_some_filter_nonempty _ _ _ Hf') as Hge.
        unfold rows_named. lia.
Qed.

(** A first login of Student on an empty database, then three more. *)
Lemma get_or_create_user_idempotent_witness :
  get_or_create_user "Student" "2024-05-01 09:59:00" nobody_store
    = (Ok 1, student_store)
  /\ login_again "Student" ["t1"; "t2"; "t3"] student_store
    = (Ok [1; 1; 1], student_store)
  /\ List.length (rows_named "Student" student_db) = 1%nat.
Proof.
  assert (Hcall : get_or_create_user "Student" "2024-05-01 09:59:00" nobody_store
                  = (Ok 1, student_store)) by reflexivity.
  destruct (get_or_create_user_idempotent "Student" nobody_store) as [_ Hrest].
  destruct (Hrest _ _ _ Hcall) as [Hagain (db' & Hfile & _ & Huniq)].
  split; [exact Hcall|]. split; [exact (Hagain ["t1"; "t2"; "t3"])|].
  inversion Hfile; subst db'.
  apply Huniq. unfold store_names_unique, names_unique; simpl. constructor.
Defined.

(** [C10] For a name already in [users], [get_or_create_user] writes
    nothing: the store after the call is the store before it, both tables
    included, and on a store that opens the call returns the id of the row
    of that name. *)
Theorem get_or_create_user_existing_reads_only
    (name now : string) (st : Store) (db : Database) :
  file st = Some db ->
  In name (map user_name (users db)) ->
  snd (get_or_create_user name now st) = st
  /\ (reachable st = true ->
      exists r, In r (users db) /\ user_name r = name
                /\ get_or_create_user name now st = (Ok (user_id r), st)).
Proof.
  intros Hfile Hin.
  apply in_names_find in Hin. destruct Hin as [r Hf].
  destruct (reachable st) eqn:Hr.
  - assert (Ho : open_db st = Ok db).
    { unfold open_db. rewrite Hr, Hfile. reflexivity. }
    rewrite (get_or_create_user_found _ now _ _ _ Ho Hf). split; [reflexivity|].
    intros _. exists r. destruct (find_some_named _ _ _ Hf). auto.
  - unfold get_or_create_user. rewrite (open_db_unreachable _ Hr).
    split; [reflexivity|discriminate].
Qed.

Lemma get_or_create_user_existing_reads_only_witness :
  snd (get_or_create_user "Student" "2024-05-02 08:00:00" student_store)
    = student_store
  /\ get_or_create_user "Student" "2024-05-02 08:00:00" student_store
    = (Ok 1, student_store).
Proof.
  destruct (get_or_create_user_existing_reads_only
              "Student" "2024-05-02 08:00:00" student_store student_db)
    as [Hsame Hid].
  - reflexivity.
  - simpl. left. reflexivity.
  - split; [exact Hsame|]. reflexivity.
Defined.

(** *** Recording progress *)

Lemma save_progress_unreachable uid topic level score now st :
  reachable st = false ->
  save_progress uid topic level score now st = (Raise OperationalError, st).
Proof.
  intros Hr. unfold save_progress. rewrite (open_db_unreachable _ Hr).
  reflexivity.
Qed.

Lemma save_progress_appends uid topic level score now st db t d s :
  open_db st = Ok db ->
  in_int64 uid = true ->
  sql_bind topic = Ok t -> sql_bind level = Ok d -> sql_bind score = Ok s ->
  logs_have_room db ->
  let id := Z.max (logs_seq db) (max_rowid (map log_id (logs db))) + 1 in
  save_progress uid topic level score now st =
    (Ok tt, commit (mk_db (users db) (users_seq db)
                          (logs db ++ [mk_log id uid t d s now]) id) st).
Proof.
  intros Ho Hu Ht Hd Hs Hroom. unfold save_progress, insert_log.
  rewrite Ho. simpl. rewrite Hu, Ht, Hd, Hs.
  unfold next_rowid. apply Z.ltb_lt in Hroom. rewrite Hroom. reflexivity.
Qed.

(** Every way [save_progress] returns. *)
Lemma save_progress_returns uid topic level score now st st' :
  save_progress uid topic level score now st = (Ok tt, st') ->
  exists db id t d s,
    open_db st = Ok db /\ in_int64 uid = true
    /\ sql_bind topic = Ok t /\ sql_bind level = Ok d /\ sql_bind score = Ok s
    /\ st' = commit (mk_db (users db) (users_seq db)
                           (logs db ++ [mk_log id uid t d s now]) id) st.
Proof.
  unfold save_progress, insert_log.
  destruct (open_db st) as [db|e] eqn:Ho; [|discriminate].
  simpl. destruct (in_int64 uid) eqn:Hu; [|discriminate].
  destruct (sql_bind topic) as [t|e]; [|discriminate].
  destruct (sql_bind level) as [d|e]; [|discriminate].
  destruct (sql_bind score) as [s|e]; [|discriminate].
  destruct (next_rowid (logs_seq db) (map log_id (logs db))) as [id|e];
    [|discriminate].
  intros H; inversion H; subst. exists db, id, t, d, s. auto 10.
Qed.

(** Whatever [save_progress] raises, the store is left as it was. *)
Lemma save_progress_raises_unchanged uid topic level score now st e st' :
  save_progress uid topic level score now st = (Raise e, st') -> st' = st.
Proof.
  unfold save_progress.
  destruct (open_db st) as [db|e0]; [|intros H; inversion H; reflexivity].
  destruct (insert_log uid topic level score now db);
    intros H; inversion H; reflexivity.
Qed.

(** [save_progress] neither reads nor writes [users]. *)
Lemma save_progress_keeps_users uid topic level score now st :
  option_map users (file (snd (save_progress uid topic level score now st)))
  = option_map users (file st).
Proof.
  destruct (save_progress uid topic level score now st) as [[[]|e] st'] eqn:H;
    simpl.
  - apply save_progress_returns in H.
    destruct H as (db & id & t & d & s & Ho & _ & _ & _ & _ & ->).
    destruct (open_db_inv _ _ Ho) as [_ ->]. reflexivity.
  - apply save_progress_raises_unchanged in H. subst. reflexivity.
Qed.

(** [C6], as the code has it: [save_progress] does not look at [users].  On
    a store that cannot be reached it raises and appends nothing.  On a
    store that opens, with ids and score in the 64-bit range and room in the
    key, it returns and appends one row carrying the given user id, for
    every content of [users], a registered user of that id or none. *)
Theorem save_progress_ignores_users
    (uid : Z) (topic level : string) (score : Z) (now : string) (st : Store) :
  (reachable st = false ->
   save_progress uid (PStr topic) (PStr level) (PInt score) now st
     = (Raise OperationalError, st))
  /\
  (forall db,
     open_db st = Ok db ->
     in_int64 uid = true -> in_int64 score = true -> logs_have_room db ->
     exists id,
       save_progress uid (PStr topic) (PStr level) (PInt score) now st
         = (Ok tt,
            commit (mk_db (users db) (users_seq db)
                      (logs db ++ [mk_log id uid (SqlText topic) (SqlText level)
                                          (SqlInt score) now]) id) st)).
Proof.
  split.
  - apply save_progress_unreachable.
  - intros db Ho Hu Hs Hroom. eexists.
    apply save_progress_appends; auto.
    simpl. rewrite Hs. reflexivity.
Qed.

(** User id 42 on a database without users, and the same call offline. *)
Lemma save_progress_ignores_users_witness :
  save_progress 42 (PStr "Python Basics") (PStr "Beginner") (PInt 80)
                "2024-05-01 10:00:00" (mk_store (Some empty_db) false)
    = (Raise OperationalError, mk_store (Some empty_db) false)
  /\ exists id,
       save_progress 42 (PStr "Python Basics") (PStr "Beginner") (PInt 80)
                     "2024-05-01 10:00:00" nobody_store
         = (Ok tt,
            commit (mk_db [] 0
                      [mk_log id 42 (SqlText "Python Basics") (SqlText "Beginner")
                              (SqlInt 80) "2024-05-01 10:00:00"] id)
                   nobody_store).
Proof.
  split.
  - apply (save_progress_ignores_users 42 "Python Basics" "Beginner" 80
             "2024-05-01 10:00:00" (mk_store (Some empty_db) false)).
    reflexivity.
  - apply (proj2 (save_progress_ignores_users 42 "Python Basics" "Beginner" 80
                    "2024-05-01 10:00:00" nobody_store) empty_db).
    + reflexivity.
    + reflexivity.
    + reflexivity.
    + unfold logs_have_room; simpl. reflexivity.
Defined.

(** [C6] as stated fails: user id 42 identifies no user of the empty
    database, and the call returns and appends a row for it. *)
Lemma save_progress_unknown_user_succeeds :
  map user_id (users empty_db) = []
  /\ save_progress 42 (PStr "Python Basics") (PStr "Beginner") (PInt 80)
                   "2024-05-01 10:00:00" nobody_store
     = (Ok tt,
        mk_store
          (Some (mk_db [] 0
                   [mk_log 1 42 (SqlText "Python Basics") (SqlText "Beginner")
                           (SqlInt 80) "2024-05-01 10:00:00"] 1))
          true).
Proof. split; reflexivity. Qed.

(** *** Reading the history *)

Lemma get_user_stats_open uid st db :
  open_db st = Ok db -> in_int64 uid = true ->
  get_user_stats uid st = (Ok (to_frame (select_stats uid db)), st).
Proof.
  intros Ho Hu. destruct (open_db_inv _ _ Ho) as [Hr Hfile].
  unfold get_user_stats. rewrite Hr, Hfile. simpl. rewrite Hu. reflexivity.
Qed.




Lemma select_stats_app uid us useq rows extra seq seq' :
  select_stats uid (mk_db us useq (rows ++ extra) seq') =
  (select_stats uid (mk_db us useq rows seq)
   ++ map stat_of_log (filter (fun r => log_user_id r =? uid) extra))%list.
Proof.
  unfold select_stats; simpl. rewrite filter_app, map_app. reflexivity.
Qed.



(** *** The frame pandas builds *)










(** ** The cycle *)

Lemma bind_ok {S A B} (m : M S A) (k : A -> M S B) s a s' :
  m s = (Ok a, s') -> bind m k s = k a s'.
Proof. unfold bind. intros ->. reflexivity. Qed.

Lemma bind_raise {S A B} (m : M S A) (k : A -> M S B) s e s' :
  m s = (Raise e, s') -> bind m k s = (Raise e, s').
Proof. unfold bind. intros ->. reflexivity. Qed.

Lemma gets_run {S A} (f : S -> A) s : gets f s = (Ok (f s), s).
Proof. reflexivity. Qed.

Lemma on_session_run f w :
  on_session f w = (Ok tt, mk_world (f (session w)) (store w)).
Proof. reflexivity. Qed.

Lemma history_append_run r c w :
  history_append r c w =
    (Ok tt, mk_world (set_history (history (session w) ++ [mk_message r c])
                                  (session w)) (store w)).
Proof. reflexivity. Qed.

Lemma transcribe_audio_run {S} env b (s : S) :
  transcribe_audio env b s =
    (match generate_from_audio env b transcribe_prompt with
     | Ok t => Ok (text_val t)
     | Raise e => Raise e
     end, s).
Proof.
  unfold transcribe_audio, bind, lift_result, ret.
  destruct (generate_from_audio env b transcribe_prompt); reflexivity.
Qed.

Lemma agent_tutor_run {S} env topic level (s : S) :
  agent_tutor env topic level s =
    (match generate_text env (tutor_prompt topic level) with
     | Ok t => Ok (text_val t)
     | Raise e => Raise e
     end, s).
Proof.
  unfold agent_tutor, bind, lift_result, ret.
  destruct (generate_text env (tutor_prompt topic level)); reflexivity.
Qed.

Lemma agent_evaluator_run {S} env answer topic (s : S) :
  agent_evaluator env answer topic s =
    (generate_json env (evaluator_prompt answer topic), s).
Proof. reflexivity. Qed.

Lemma agent_curriculum_run {S} env score topic (s : S) :
  agent_curriculum env score topic s =
    (generate_json env (curriculum_prompt score topic), s).
Proof. reflexivity. Qed.

Lemma getitem_run {S} d k (s : S) :
  getitem d k s =
    (match d with
     | JObject fields =>
         match dict_get k fields with
         | Some v => Ok v
         | None => Raise (KeyError k)
         end
     | JOther => Raise TypeError
     end, s).
Proof.
  unfold getitem. destruct d as [fields|]; [|reflexivity].
  destruct (dict_get k fields); reflexivity.
Qed.

(** [text_to_speech] returns whatever gTTS does. *)
Lemma text_to_speech_run {S} env text (s : S) :
  text_to_speech env text s =
    (Ok (match gtts_mp3 env text with
         | Ok buf => Some buf
         | Raise _ => None
         end), s).
Proof.
  unfold text_to_speech, try_except, bind, lift_result, ret.
  destruct (gtts_mp3 env text); reflexivity.
Qed.

(** Step 2 of the cycle, as [persisted] describes it. *)
Lemma save_step_run env user_id score w r st' :
  persisted env user_id score w r st' ->
  match user_id with
  | Some uid =>
      if truthy (PInt uid) then
        topic <- gets (fun w => current_topic (session w)) ;;
        level <- gets (fun w => difficulty (session w)) ;;
        on_store (save_progress uid topic level score (clock env))
      else ret tt
  | None => ret tt
  end w = (r, mk_world (session w) st').
Proof.
  unfold persisted. destruct user_id as [uid|].
  - destruct (truthy (PInt uid)).
    + intros H. unfold bind, gets, on_store. rewrite H. reflexivity.
    + intros [-> ->]. destruct w; reflexivity.
  - intros [-> ->]. destruct w; reflexivity.
Qed.

(** Step 2 always has an outcome, and it leaves the session alone. *)
Lemma persisted_total env user_id score w :
  exists r st', persisted env user_id score w r st'.
Proof.
  unfold persisted. destruct user_id as [uid|]; [|eauto].
  destruct (truthy (PInt uid)); [|eauto].
  destruct (save_progress uid (current_topic (session w))
              (difficulty (session w)) score (clock env) (store w)) as [r st'].
  eauto.
Qed.

(** A failed write leaves the store as it was. *)
Lemma persisted_raise_unchanged env user_id score w e st' :
  persisted env user_id score w (Raise e) st' -> st' = store w.
Proof.
  unfold persisted. destruct user_id as [uid|].
  - destruct (truthy (PInt uid)).
    + apply save_progress_raises_unchanged.
    + intros [H _]; discriminate.
  - intros [H _]; discriminate.
Qed.

Ltac norm :=
  cbn [session store current_topic difficulty mastery_score history last_audio
       set_history set_current_topic set_difficulty set_mastery_score
       set_last_audio].

Ltac oracle :=
  norm;
  repeat match goal with
    | H : generate_from_audio _ _ _ = _ |- _ => rewrite H
    | H : generate_json _ _ = _ |- _ => rewrite H
    | H : generate_text _ _ = _ |- _ => rewrite H
    | H : dict_get _ _ = _ |- _ => rewrite H
    end;
  reflexivity.

Ltac prim :=
  first
    [ apply gets_run
    | apply on_session_run
    | apply history_append_run
    | apply text_to_speech_run
    | eapply save_step_run; eassumption
    | rewrite transcribe_audio_run; oracle
    | rewrite agent_evaluator_run; oracle
    | rewrite agent_curriculum_run; oracle
    | rewrite agent_tutor_run; oracle
    | rewrite getitem_run; oracle ].

(** One statement of the cycle that returns / the statement that raises. *)
Ltac step := erewrite bind_ok; [|prim]; norm.
Ltac stop := erewrite bind_raise; [|prim]; norm.

Ltac enter_cycle Hc Hu :=
  unfold cycle; rewrite Hc; step; rewrite Hu.

Lemma cycle_no_recording env user_id w :
  cycle env user_id None w = (Ok tt, w).
Proof. reflexivity. Qed.

Lemma cycle_no_client env user_id audio w :
  client env = false -> cycle env user_id audio w = (Ok tt, w).
Proof. intros Hc. unfold cycle. rewrite Hc. destruct audio; reflexivity. Qed.

(** *** The stages of one cycle

    One recorded answer [b], in the world [w], for the user [user_id]. *)
Section Stages.

Variables (env : Env) (user_id : option Z) (b : bytes) (w : World).

Lemma cycle_completes heard ev score feedback
      next_topic next_level lesson st' :
  transcribed env b heard ->
  graded env heard (current_topic (session w)) ev score ->
  persisted env user_id score w (Ok tt) st' ->
  planned env score (current_topic (session w)) next_topic next_level ->
  taught env next_topic next_level lesson ->
  dict_get "feedback" ev = Some feedback ->
  cycle env user_id (Some b) w =
    (Ok tt,
     completed w heard score feedback next_topic next_level lesson
       (match gtts_mp3 env (PStr (full_resp score feedback lesson)) with
        | Ok buf => Some buf
        | Raise _ => None
        end) st').
Proof.
  intros (Hc & (t & Ht & ->) & Hu) (Hev & Hs) Hp (plan & Hpl & Hnt & Hnl)
         (tl & Hl & ->) Hf.
  enter_cycle Hc Hu. repeat step.
  rewrite on_session_run. norm. unfold completed, learner_turn, tutor_turn.
  rewrite <- app_assoc. reflexivity.
Qed.

Lemma cycle_transcription_raises e :
  client env = true ->
  generate_from_audio env b transcribe_prompt = Raise e ->
  cycle env user_id (Some b) w = (Raise e, w).
Proof.
  intros Hc Ht. unfold cycle. rewrite Hc. stop. reflexivity.
Qed.

Lemma cycle_no_text t :
  generate_from_audio env b transcribe_prompt = Ok t ->
  truthy (text_val t) = false ->
  cycle env user_id (Some b) w = (Ok tt, w).
Proof.
  intros Ht Hu. unfold cycle. destruct (client env); [|reflexivity].
  step. rewrite Hu. reflexivity.
Qed.

Lemma subscript_cases r k :
  (exists e, subscript r k = Raise e)
  \/ (exists fields v, r = Ok (JObject fields) /\ dict_get k fields = Some v).
Proof.
  unfold subscript. destruct r as [[fields|]|e]; eauto.
  destruct (dict_get k fields) eqn:E; eauto.
Qed.

Lemma subscript_ok r k v :
  subscript r k = Ok v ->
  exists fields, r = Ok (JObject fields) /\ dict_get k fields = Some v.
Proof.
  unfold subscript. destruct r as [[fields|]|e]; try discriminate.
  destruct (dict_get k fields) eqn:E; [|discriminate].
  intros H; inversion H; subst. eauto.
Qed.

(** A request whose subscript raises: the two statements stop there. *)
Lemma request_then_subscript_raises {S B} (r : result json) k e (s : S)
    (rest : json -> pyval -> M S B) :
  subscript r k = Raise e ->
  bind (lift_result r) (fun d => bind (getitem d k) (rest d)) s = (Raise e, s).
Proof.
  unfold subscript, bind, lift_result.
  destruct r as [[fields|]|e']; simpl.
  - unfold getitem. destruct (dict_get k fields); [discriminate|].
    intros H; inversion H; reflexivity.
  - intros H; inversion H; reflexivity.
  - intros H; inversion H; reflexivity.
Qed.

Lemma cycle_evaluation_raises heard e :
  transcribed env b heard ->
  evaluation_fails env heard (current_topic (session w)) e ->
  cycle env user_id (Some b) w = (Raise e, answered w heard).
Proof.
  intros (Hc & (t & Ht & ->) & Hu) Hev.
  enter_cycle Hc Hu. step. step.
  unfold agent_evaluator.
  erewrite (request_then_subscript_raises _ "score" e); [reflexivity|].
  exact Hev.
Qed.

Lemma cycle_save_raises heard ev score e st' :
  transcribed env b heard ->
  graded env heard (current_topic (session w)) ev score ->
  persisted env user_id score w (Raise e) st' ->
  cycle env user_id (Some b) w = (Raise e, scored w heard score st').
Proof.
  intros (Hc & (t & Ht & ->) & Hu) (Hev & Hs) Hp.
  enter_cycle Hc Hu. repeat step. stop. reflexivity.
Qed.

Lemma cycle_curriculum_raises heard ev score st' e :
  transcribed env b heard ->
  graded env heard (current_topic (session w)) ev score ->
  persisted env user_id score w (Ok tt) st' ->
  curriculum_fails env score (current_topic (session w)) e ->
  cycle env user_id (Some b) w = (Raise e, scored w heard score st').
Proof.
  intros (Hc & (t & Ht & ->) & Hu) (Hev & Hs) Hp Hpl.
  enter_cycle Hc Hu. repeat step.
  unfold agent_curriculum.
  erewrite (request_then_subscript_raises _ "next_topic" e); [reflexivity|].
  exact Hpl.
Qed.

Lemma cycle_level_missing heard ev score st' next_topic e :
  transcribed env b heard ->
  graded env heard (current_topic (session w)) ev score ->
  persisted env user_id score w (Ok tt) st' ->
  level_missing env score (current_topic (session w)) next_topic e ->
  cycle env user_id (Some b) w =
    (Raise e, retargeted w heard score next_topic st').
Proof.
  intros (Hc & (t & Ht & ->) & Hu) (Hev & Hs) Hp (Hnt & Hnl).
  apply subscript_ok in Hnt. destruct Hnt as (plan & Hpl & Hnt).
  rewrite Hpl in Hnl. simpl in Hnl.
  destruct (dict_get "difficulty" plan) eqn:Hd; [discriminate|].
  inversion Hnl; subst e.
  enter_cycle Hc Hu. repeat step. stop. reflexivity.
Qed.

Lemma cycle_lesson_raises heard ev score st' next_topic next_level e :
  transcribed env b heard ->
  graded env heard (current_topic (session w)) ev score ->
  persisted env user_id score w (Ok tt) st' ->
  planned env score (current_topic (session w)) next_topic next_level ->
  generate_text env (tutor_prompt next_topic next_level) = Raise e ->
  cycle env user_id (Some b) w =
    (Raise e, adapted w heard score next_topic next_level st').
Proof.
  intros (Hc & (t & Ht & ->) & Hu) (Hev & Hs) Hp (plan & Hpl & Hnt & Hnl) Hl.
  enter_cycle Hc Hu. repeat step. stop. reflexivity.
Qed.

Lemma cycle_feedback_missing heard ev score st'
      next_topic next_level lesson :
  transcribed env b heard ->
  graded env heard (current_topic (session w)) ev score ->
  persisted env user_id score w (Ok tt) st' ->
  planned env score (current_topic (session w)) next_topic next_level ->
  taught env next_topic next_level lesson ->
  dict_get "feedback" ev = None ->
  cycle env user_id (Some b) w =
    (Raise (KeyError "feedback"),
     adapted w heard score next_topic next_level st').
Proof.
  intros (Hc & (t & Ht & ->) & Hu) (Hev & Hs) Hp (plan & Hpl & Hnt & Hnl)
         (tl & Hl & ->) Hf.
  enter_cycle Hc Hu. repeat step. stop. reflexivity.
Qed.

Lemma evaluation_cases heard topic :
  (exists e, evaluation_fails env heard topic e)
  \/ (exists ev score, graded env heard topic ev score).
Proof.
  unfold evaluation_fails, graded.
  destruct (subscript_cases (generate_json env (evaluator_prompt heard topic))
              "score") as [[e He]|(ev & v & Hr & Hv)]; eauto.
Qed.

Lemma cycle_graded_cases heard ev score :
  transcribed env b heard ->
  graded env heard (current_topic (session w)) ev score ->
  exists r st',
    persisted env user_id score w r st'
    /\ ((exists e, r = Raise e
                   /\ cycle env user_id (Some b) w
                      = (Raise e, scored w heard score st'))
        \/ (r = Ok tt
            /\ exists e w', cycle env user_id (Some b) w = (Raise e, w')
                 /\ history (session w')
                    = (history (session w) ++ [learner_turn heard])%list
                 /\ mastery_score (session w') = score /\ store w' = st')
        \/ (r = Ok tt
            /\ exists feedback next_topic next_level lesson,
                 dict_get "feedback" ev = Some feedback
                 /\ planned env score (current_topic (session w))
                            next_topic next_level
                 /\ taught env next_topic next_level lesson
                 /\ cycle env user_id (Some b) w =
                    (Ok tt,
                     completed w heard score feedback next_topic next_level
                       lesson
                       (match gtts_mp3 env
                                (PStr (full_resp score feedback lesson)) with
                        | Ok buf => Some buf
                        | Raise _ => None
                        end) st'))).
Proof.
  intros Hh Hg.
  destruct (persisted_total env user_id score w) as (r & st' & Hp).
  exists r, st'. split; [exact Hp|].
  destruct r as [[]|e].
  2:{ left. exists e. split; [reflexivity|].
      eapply cycle_save_raises; eauto. }
  right.
  set (plan := generate_json env (curriculum_prompt score (current_topic (session w)))).
  destruct (subscript plan "next_topic") as [nt|e] eqn:Hnt.
  2:{ left. split; [reflexivity|]. exists e. eexists. split.
      - eapply cycle_curriculum_raises; eauto.
      - simpl. auto. }
  destruct (subscript plan "difficulty") as [nl|e] eqn:Hnl.
  2:{ left. split; [reflexivity|]. exists e. eexists. split.
      - eapply cycle_level_missing; eauto. split; eassumption.
      - simpl. auto. }
  assert (Hpl : planned env score (current_topic (session w)) nt nl).
  { destruct (subscript_ok _ _ _ Hnt) as (fields & Hr & Hk).
    exists fields. split; [exact Hr|]. split; [exact Hk|].
    subst plan. rewrite Hr in Hnl. simpl in Hnl.
    destruct (dict_get "difficulty" fields); [|discriminate].
    inversion Hnl; reflexivity. }
  destruct (generate_text env (tutor_prompt nt nl)) as [tl|e] eqn:Hl.
  2:{ left. split; [reflexivity|]. exists e. eexists. split.
      - eapply cycle_lesson_raises; eauto.
      - simpl. auto. }
  assert (Ht : taught env nt nl (text_val tl)) by (exists tl; auto).
  destruct (dict_get "feedback" ev) as [feedback|] eqn:Hf.
  2:{ left. split; [reflexivity|]. eexists. eexists. split.
      - eapply cycle_feedback_missing; eauto.
      - simpl. auto. }
  right. split; [reflexivity|].
  exists feedback, nt, nl, (text_val tl). repeat split; auto.
  eapply cycle_completes; eauto.
Qed.

End Stages.

(** What a write that returned did to [logs]. *)
Lemma persisted_logs env user_id score w r st' :
  persisted env user_id score w r st' ->
  exists added,
    logs_of st' = (logs_of (store w) ++ added)%list
    /\ Forall (fun row => sql_bind score = Ok (log_score row)) added.
Proof.
  unfold persisted.
  assert (Hsame : st' = store w ->
            exists added, logs_of st' = (logs_of (store w) ++ added)%list
              /\ Forall (fun row => sql_bind score = Ok (log_score row)) added).
  { intros ->. exists []. rewrite app_nil_r. split; [reflexivity|constructor]. }
  destruct user_id as [uid|]; [|intros [_ H]; auto].
  destruct (truthy (PInt uid)); [|intros [_ H]; auto].
  destruct r as [[]|e].
  - intros H. apply save_progress_returns in H.
    destruct H as (db & id & t & d & s & Ho & _ & _ & _ & Hs & ->).
    destruct (open_db_inv _ _ Ho) as [_ Hfile].
    eexists. unfold logs_of. rewrite Hfile. simpl. split; [reflexivity|].
    constructor; [simpl; exact Hs|constructor].
  - intros H. apply save_progress_raises_unchanged in H. auto.
Qed.

Lemma truthy_user_id uid : uid <> 0 -> truthy (PInt uid) = true.
Proof. intros H. simpl. apply Z.eqb_neq in H. rewrite H. reflexivity. Qed.

(** ** What a cycle does with the answers it gets *)

(** [C1], as the code has it: the cycle does not clamp.  When the evaluator
    returns the integer score [n], the cycle sets [mastery_score] to [n]
    itself, every row it appends to [logs] carries the score [n] itself,
    and with a logged-in user, a store that opens, values in the 64-bit
    range and room in the key it does append that row.  A stored score is
    within 0 to 100 exactly when the evaluator's score is. *)
Theorem cycle_stores_score_as_returned
    (env : Env) (user_id : option Z) (b : bytes) (w : World) (heard : pyval)
    (ev : list (string * pyval)) (n : Z) :
  transcribed env b heard ->
  graded env heard (current_topic (session w)) ev (PInt n) ->
  mastery_score (session (snd (cycle env user_id (Some b) w))) = PInt n
  /\ (exists added,
        logs_of (store (snd (cycle env user_id (Some b) w)))
          = (logs_of (store w) ++ added)%list
        /\ Forall (fun row => log_score row = SqlInt n) added)
  /\ (forall uid db t d,
        user_id = Some uid -> uid <> 0 ->
        open_db (store w) = Ok db ->
        in_int64 uid = true -> in_int64 n = true ->
        sql_bind (current_topic (session w)) = Ok t ->
        sql_bind (difficulty (session w)) = Ok d ->
        logs_have_room db ->
        exists id,
          logs_of (store (snd (cycle env user_id (Some b) w)))
            = (logs db ++ [mk_log id uid t d (SqlInt n) (clock env)])%list).
Proof.
  intros Hh Hg.
  destruct (cycle_graded_cases env user_id b w heard ev (PInt n) Hh Hg)
    as (r & st' & Hp & Hcases).
  assert (Hend : mastery_score (session (snd (cycle env user_id (Some b) w)))
                 = PInt n
                 /\ store (snd (cycle env user_id (Some b) w)) = st').
  { destruct Hcases as [(e & _ & ->)|[(_ & e & w' & -> & _ & Hm & Hst)
                                     |(_ & f & nt & nl & l & _ & _ & _ & ->)]];
      simpl; auto. }
  destruct Hend as [Hm Hst]. rewrite Hst. split; [exact Hm|]. split.
  - destruct (persisted_logs _ _ _ _ _ _ Hp) as (added & Hl & Hall).
    exists added. split; [exact Hl|].
    eapply Forall_impl; [|exact Hall].
    intros row Hrow. simpl in Hrow. symmetry in Hrow.
    destruct (in_int64 n); [|discriminate]. inversion Hrow; reflexivity.
  - intros uid db t d -> Hnz Ho Hu Hn Ht Hd Hroom.
    unfold persisted in Hp. rewrite (truthy_user_id _ Hnz) in Hp.
    assert (Hs : sql_bind (PInt n) = Ok (SqlInt n)) by (simpl; rewrite Hn; auto).
    rewrite (save_progress_appends _ _ _ _ (clock env) _ _ _ _ _
               Ho Hu Ht Hd Hs Hroom) in Hp.
    inversion Hp; subst. eexists. unfold logs_of. simpl. reflexivity.
Qed.

Lemma scenario_transcribed score :
  transcribed (scenario_env score) recording answer_heard.
Proof.
  split; [reflexivity|]. split; [|reflexivity].
  exists (Some "A variable stores a value"). split; reflexivity.
Qed.

Lemma scenario_graded score :
  graded (scenario_env score) answer_heard (PStr "Python Basics")
         [("score", PInt score); ("feedback", PStr "Good")] (PInt score).
Proof. split; reflexivity. Qed.

Lemma scenario_planned score :
  planned (scenario_env score) (PInt score) (PStr "Python Basics")
          (PStr "Loops") (PStr "Intermediate").
Proof.
  exists [("next_topic", PStr "Loops"); ("difficulty", PStr "Intermediate")].
  split; [|split; reflexivity].
  unfold scenario_env, fixed_env, curriculum_prompt; simpl. reflexivity.
Qed.

Lemma scenario_taught score :
  taught (scenario_env score) (PStr "Loops") (PStr "Intermediate")
         (PStr loops_lesson).
Proof. exists (Some loops_lesson). split; reflexivity. Qed.

(** The scenario with score 37: stored and shown as 37. *)
Lemma cycle_stores_score_as_returned_witness :
  mastery_score
    (session (snd (cycle (scenario_env 37) (Some 1) (Some recording)
                         student_world))) = PInt 37
  /\ exists id,
       logs_of (store (snd (cycle (scenario_env 37) (Some 1) (Some recording)
                                  student_world)))
       = [mk_log id 1 (SqlText "Python Basics") (SqlText "Beginner")
                 (SqlInt 37) "2024-05-01 10:00:00"].
Proof.
  destruct (cycle_stores_score_as_returned (scenario_env 37) (Some 1) recording
              student_world answer_heard
              [("score", PInt 37); ("feedback", PStr "Good")] 37
              (scenario_transcribed 37) (scenario_graded 37))
    as (Hm & _ & Hrow).
  split; [exact Hm|].
  apply (Hrow 1 student_db (SqlText "Python Basics") (SqlText "Beginner"));
    try reflexivity.
  discriminate.
Defined.

(** [C1] as stated fails: the evaluator's scores -5 and 150 reach
    [mastery_score] and the [logs] table as they are, not as 0 and 100. *)
Lemma score_outside_range_is_stored :
  mastery_score
    (session (snd (cycle (scenario_env (-5)) (Some 1) (Some recording)
                         student_world))) = PInt (-5)
  /\ map log_score
       (logs_of (store (snd (cycle (scenario_env (-5)) (Some 1)
                                   (Some recording) student_world))))
     = [SqlInt (-5)]
  /\ map log_score
       (logs_of (store (snd (cycle (scenario_env 150) (Some 1)
                                   (Some recording) student_world))))
     = [SqlInt 150]
  /\ forallb score_in_range
       (map log_score
          (logs_of (store (snd (cycle (scenario_env 150) (Some 1)
                                      (Some recording) student_world)))))
     = false.
Proof. repeat split; reflexivity. Qed.

(** [C2], as the code has it: the write is not guarded.  When a user id is
    bound and [save_progress] raises, the exception leaves the cycle at
    that statement: the learner's turn and the score set before it remain,
    the curriculum is not asked, topic and difficulty keep their values, no
    tutor turn is appended, the audio is not replaced and the store is
    unchanged. *)
Theorem failed_save_ends_cycle
    (env : Env) (user_id : option Z) (b : bytes) (w : World) (heard : pyval)
    (ev : list (string * pyval)) (score : pyval) (e : exn) (st' : Store) :
  transcribed env b heard ->
  graded env heard (current_topic (session w)) ev score ->
  persisted env user_id score w (Raise e) st' ->
  exists w',
    cycle env user_id (Some b) w = (Raise e, w')
    /\ history (session w') = (history (session w) ++ [learner_turn heard])%list
    /\ mastery_score (session w') = score
    /\ current_topic (session w') = current_topic (session w)
    /\ difficulty (session w') = difficulty (session w)
    /\ last_audio (session w') = last_audio (session w)
    /\ store w' = store w.
Proof.
  intros Hh Hg Hp. exists (scored w heard score st').
  split; [eapply cycle_save_raises; eauto|].
  rewrite (persisted_raise_unchanged _ _ _ _ _ _ Hp). simpl. auto 10.
Qed.

(** The scenario with a database that cannot be opened. *)
Lemma failed_save_ends_cycle_witness :
  exists w',
    cycle (scenario_env 80) (Some 1) (Some recording) offline_world
      = (Raise OperationalError, w')
    /\ history (session w') = [first_lesson; learner_turn answer_heard]
    /\ mastery_score (session w') = PInt 80
    /\ current_topic (session w') = PStr "Python Basics"
    /\ difficulty (session w') = PStr "Beginner"
    /\ last_audio (session w') = Some mp3_bytes
    /\ store w' = store offline_world.
Proof.
  apply (failed_save_ends_cycle (scenario_env 80) (Some 1) recording
           offline_world answer_heard
           [("score", PInt 80); ("feedback", PStr "Good")] (PInt 80)
           OperationalError (store offline_world)).
  - apply scenario_transcribed.
  - apply scenario_graded.
  - reflexivity.
Defined.

(** [C2] as stated fails: a user id is bound, the write fails because the
    database cannot be opened, and the cycle ends there although the
    curriculum would have answered Loops: the topic is still Python Basics
    and the history ends with the learner's turn.  The same happens on a
    database that opens when the evaluator's score does not fit SQLite's
    64-bit INTEGER. *)
Lemma failed_save_blocks_the_lesson :
  save_progress 1 (PStr "Python Basics") (PStr "Beginner") (PInt 80)
                "2024-05-01 10:00:00" (store offline_world)
    = (Raise OperationalError, store offline_world)
  /\ fst (cycle (scenario_env 80) (Some 1) (Some recording) offline_world)
     = Raise OperationalError
  /\ current_topic
       (session (snd (cycle (scenario_env 80) (Some 1) (Some recording)
                            offline_world)))
     = PStr "Python Basics"
  /\ difficulty
       (session (snd (cycle (scenario_env 80) (Some 1) (Some recording)
                            offline_world)))
     = PStr "Beginner"
  /\ history
       (session (snd (cycle (scenario_env 80) (Some 1) (Some recording)
                            offline_world)))
     = [first_lesson; mk_message "user" (PStr "A variable stores a value")]
  /\ fst (cycle (scenario_env (2 ^ 63)) (Some 1) (Some recording) student_world)
     = Raise OverflowError
  /\ current_topic
       (session (snd (cycle (scenario_env (2 ^ 63)) (Some 1) (Some recording)
                            student_world)))
     = PStr "Python Basics".
Proof. repeat split; reflexivity. Qed.

(** [C7] A cycle whose transcription yields no usable text, [None] or the
    empty string, returns with the world as it was: history, topic,
    difficulty, score and audio are unchanged and the store is not
    written.  The same holds of the world when the transcription request
    raises. *)
Theorem cycle_without_text_changes_nothing
    (env : Env) (user_id : option Z) (b : bytes) (w : World) :
  (forall t,
     generate_from_audio env b transcribe_prompt = Ok t ->
     t = None \/ t = Some "" ->
     cycle env user_id (Some b) w = (Ok tt, w))
  /\ (forall e,
        generate_from_audio env b transcribe_prompt = Raise e ->
        snd (cycle env user_id (Some b) w) = w).
Proof.
  split.
  - intros t Ht Hempty. apply (cycle_no_text _ _ _ _ t Ht).
    destruct Hempty as [-> | ->]; reflexivity.
  - intros e Ht. destruct (client env) eqn:Hc.
    + rewrite (cycle_transcription_raises _ _ _ _ e Hc Ht). reflexivity.
    + rewrite (cycle_no_client _ _ _ _ Hc). reflexivity.
Qed.

(** Silence recorded in the scenario. *)
Lemma cycle_without_text_changes_nothing_witness :
  cycle silent_env (Some 1) (Some recording) student_world
    = (Ok tt, student_world).
Proof.
  apply (proj1 (cycle_without_text_changes_nothing silent_env (Some 1)
                  recording student_world) (Some "")).
  - reflexivity.
  - right. reflexivity.
Defined.

(** [C3], as the code has it: only speech synthesis is guarded.  With a
    client configured, an exception raised by the transcription request, by
    the evaluation (the request or the subscript [score]), by
    [save_progress], by the curriculum (the request or either subscript),
    by the lesson request or by the subscript [feedback] is the outcome of
    the cycle: nothing catches it.  A failure of gTTS is caught inside
    [text_to_speech]: the cycle returns, with the tutor's turn in the
    history and no audio.  A transcription without usable text ends the
    cycle silently, the world unchanged. *)
Theorem only_speech_failure_is_caught
    (env : Env) (user_id : option Z) (b : bytes) (w : World) (e : exn) :
  client env = true ->
  (generate_from_audio env b transcribe_prompt = Raise e ->
   fst (cycle env user_id (Some b) w) = Raise e)
  /\ (forall heard,
        transcribed env b heard ->
        evaluation_fails env heard (current_topic (session w)) e ->
        fst (cycle env user_id (Some b) w) = Raise e)
  /\ (forall heard ev score st',
        transcribed env b heard ->
        graded env heard (current_topic (session w)) ev score ->
        persisted env user_id score w (Raise e) st' ->
        fst (cycle env user_id (Some b) w) = Raise e)
  /\ (forall heard ev score st',
        transcribed env b heard ->
        graded env heard (current_topic (session w)) ev score ->
        persisted env user_id score w (Ok tt) st' ->
        curriculum_fails env score (current_topic (session w)) e
        \/ (exists next_topic,
              level_missing env score (current_topic (session w)) next_topic e) ->
        fst (cycle env user_id (Some b) w) = Raise e)
  /\ (forall heard ev score st' next_topic next_level,
        transcribed env b heard ->
        graded env heard (current_topic (session w)) ev score ->
        persisted env user_id score w (Ok tt) st' ->
        planned env score (current_topic (session w)) next_topic next_level ->
        generate_text env (tutor_prompt next_topic next_level) = Raise e ->
        fst (cycle env user_id (Some b) w) = Raise e)
  /\ (forall heard ev score st' next_topic next_level lesson,
        transcribed env b heard ->
        graded env heard (current_topic (session w)) ev score ->
        persisted env user_id score w (Ok tt) st' ->
        planned env score (current_topic (session w)) next_topic next_level ->
        taught env next_topic next_level lesson ->
        dict_get "feedback" ev = None ->
        fst (cycle env user_id (Some b) w) = Raise (KeyError "feedback"))
  /\ (forall heard ev score st' next_topic next_level lesson feedback,
        transcribed env b heard ->
        graded env heard (current_topic (session w)) ev score ->
        persisted env user_id score w (Ok tt) st' ->
        planned env score (current_topic (session w)) next_topic next_level ->
        taught env next_topic next_level lesson ->
        dict_get "feedback" ev = Some feedback ->
        gtts_mp3 env (PStr (full_resp score feedback lesson)) = Raise e ->
        cycle env user_id (Some b) w =
          (Ok tt,
           completed w heard score feedback next_topic next_level lesson
                     None st'))
  /\ (forall t,
        generate_from_audio env b transcribe_prompt = Ok t ->
        truthy (text_val t) = false ->
        cycle env user_id (Some b) w = (Ok tt, w)).
Proof.
  intros Hc. repeat apply conj.
  - intros Ht. rewrite (cycle_transcription_raises _ _ _ _ e Hc Ht). reflexivity.
  - intros heard Hh Hev.
    rewrite (cycle_evaluation_raises _ _ _ _ _ _ Hh Hev). reflexivity.
  - intros heard ev score st' Hh Hg Hp.
    rewrite (cycle_save_raises _ _ _ _ _ _ _ _ _ Hh Hg Hp). reflexivity.
  - intros heard ev score st' Hh Hg Hp [Hpl|(nt & Hlv)].
    + rewrite (cycle_curriculum_raises _ _ _ _ _ _ _ _ _ Hh Hg Hp Hpl).
      reflexivity.
    + rewrite (cycle_level_missing _ _ _ _ _ _ _ _ _ _ Hh Hg Hp Hlv).
      reflexivity.
  - intros heard ev score st' nt nl Hh Hg Hp Hpl Hl.
    rewrite (cycle_lesson_raises _ _ _ _ _ _ _ _ _ _ _ Hh Hg Hp Hpl Hl).
    reflexivity.
  - intros heard ev score st' nt nl lesson Hh Hg Hp Hpl Hl Hf.
    rewrite (cycle_feedback_missing _ _ _ _ _ _ _ _ _ _ _ Hh Hg Hp Hpl Hl Hf).
    reflexivity.
  - intros heard ev score st' nt nl lesson feedback Hh Hg Hp Hpl Hl Hf Hsp.
    rewrite (cycle_completes _ _ _ _ _ _ _ _ _ _ _ _ Hh Hg Hp Hpl Hl Hf).
    rewrite Hsp. reflexivity.
  - intros t Ht Hu. exact (cycle_no_text _ _ _ _ t Ht Hu).
Qed.

(** An evaluator whose reply does not parse, and a synthesiser that fails. *)
Lemma only_speech_failure_is_caught_witness :
  fst (cycle broken_evaluator_env (Some 1) (Some recording) student_world)
    = Raise JSONDecodeError
  /\ fst (cycle mute_env (Some 1) (Some recording) student_world) = Ok tt
  /\ last_audio
       (session (snd (cycle mute_env (Some 1) (Some recording) student_world)))
     = None.
Proof.
  split.
  - destruct (only_speech_failure_is_caught broken_evaluator_env (Some 1)
                recording student_world JSONDecodeError eq_refl)
      as (_ & Hev & _).
    apply (Hev answer_heard).
    + split; [reflexivity|]. split; [|reflexivity].
      exists (Some "A variable stores a value"). split; reflexivity.
    + reflexivity.
  - destruct (only_speech_failure_is_caught mute_env (Some 1)
                recording student_world (SpeechError "connection refused")
                eq_refl)
      as (_ & _ & _ & _ & _ & _ & Hsp & _).
    rewrite (Hsp answer_heard
               [("score", PInt 80); ("feedback", PStr "Good")] (PInt 80)
               (snd (save_progress 1 (PStr "Python Basics") (PStr "Beginner")
                       (PInt 80) "2024-05-01 10:00:00" student_store))
               (PStr "Loops") (PStr "Intermediate") (PStr loops_lesson)
               (PStr "Good")).
    + split; reflexivity.
    + split; [reflexivity|]. split; [|reflexivity].
      exists (Some "A variable stores a value"). split; reflexivity.
    + split; reflexivity.
    + reflexivity.
    + exists [("next_topic", PStr "Loops"); ("difficulty", PStr "Intermediate")].
      split; [|split]; reflexivity.
    + exists (Some loops_lesson). split; reflexivity.
    + reflexivity.
    + reflexivity.
Defined.

(** [C3] as stated fails: the evaluator's reply does not parse, and the
    exception is the outcome of the cycle. *)
Lemma evaluation_failure_leaves_the_cycle :
  generate_json broken_evaluator_env
    (evaluator_prompt answer_heard (PStr "Python Basics"))
    = Raise JSONDecodeError
  /\ cycle broken_evaluator_env (Some 1) (Some recording) student_world
     = (Raise JSONDecodeError, answered student_world answer_heard).
Proof. split; reflexivity. Qed.

(** [C8], as the code has it: the tutor's turn is the f-string
    [({score}/100 - {feedback}) {new_lesson}].  Every cycle that heard
    usable text and returned appended two turns to the history, the
    learner's and then the tutor's, and the tutor's text is an opening
    parenthesis, the score, [/100 - ], the feedback, a closing parenthesis
    and a space, and the new lesson, in that order. *)
Theorem tutor_turn_text
    (env : Env) (user_id : option Z) (b : bytes) (w : World) (heard : pyval) :
  transcribed env b heard ->
  fst (cycle env user_id (Some b) w) = Ok tt ->
  exists ev score feedback next_topic next_level lesson,
    graded env heard (current_topic (session w)) ev score
    /\ dict_get "feedback" ev = Some feedback
    /\ planned env score (current_topic (session w)) next_topic next_level
    /\ taught env next_topic next_level lesson
    /\ history (session (snd (cycle env user_id (Some b) w))) =
       (history (session w)
        ++ [ mk_message "user" heard;
             mk_message "assistant"
               (PStr ("(" ++ py_str score ++ "/100 - " ++ py_str feedback
                      ++ ") " ++ py_str lesson)) ])%list.
Proof.
  intros Hh Hok.
  destruct (evaluation_cases env heard (current_topic (session w)))
    as [[e Hev]|(ev & score & Hg)].
  { rewrite (cycle_evaluation_raises _ _ _ _ _ _ Hh Hev) in Hok.
    discriminate. }
  destruct (cycle_graded_cases env user_id b w heard ev score Hh Hg)
    as (r & st' & Hp & [(e & _ & Hc)|[(_ & e & w' & Hc & _)
                                     |(_ & f & nt & nl & l & Hf & Hpl & Hl & Hc)]]).
  - rewrite Hc in Hok. discriminate.
  - rewrite Hc in Hok. discriminate.
  - exists ev, score, f, nt, nl, l. rewrite Hc. simpl. auto 10.
Qed.

(** The end-to-end scenario, score 80 and feedback Good. *)
Lemma tutor_turn_text_witness :
  exists ev score feedback next_topic next_level lesson,
    graded (scenario_env 80) answer_heard
           (current_topic (session student_world)) ev score
    /\ dict_get "feedback" ev = Some feedback
    /\ planned (scenario_env 80) score
               (current_topic (session student_world)) next_topic next_level
    /\ taught (scenario_env 80) next_topic next_level lesson
    /\ history
         (session (snd (cycle (scenario_env 80) (Some 1) (Some recording)
                              student_world))) =
       (history (session student_world)
        ++ [ mk_message "user" answer_heard;
             mk_message "assistant"
               (PStr ("(" ++ py_str score ++ "/100 - " ++ py_str feedback
                      ++ ") " ++ py_str lesson)) ])%list.
Proof.
  apply (tutor_turn_text (scenario_env 80) (Some 1) recording student_world
           answer_heard).
  - apply scenario_transcribed.
  - reflexivity.
Defined.

(** [C8] as stated fails: in the end-to-end scenario the tutor's turn is
    [(80/100 - Good) ] followed by the lesson; it begins with a
    parenthesis, not with 80, and it is not the plain concatenation of
    score, feedback and lesson. *)
Lemma tutor_turn_begins_with_parenthesis :
  map content
    (history (session (snd (cycle (scenario_env 80) (Some 1) (Some recording)
                                  student_world))))
  = [ content first_lesson; answer_heard;
      PStr ("(80/100 - Good) " ++ loops_lesson) ]
  /\ String.prefix "80" ("(80/100 - Good) " ++ loops_lesson) = false
  /\ String.prefix "(80/100 - Good) " ("(80/100 - Good) " ++ loops_lesson) = true
  /\ "(80/100 - Good) " ++ loops_lesson <> "80" ++ "Good" ++ loops_lesson.
Proof. repeat split; try reflexivity. discriminate. Qed.

(** [C9] [text_to_speech] never raises.  For every text it returns a buffer
    or [None] and leaves the state alone: the buffer when gTTS wrote one,
    [None] when gTTS raised.  A cycle in which every call before speech
    returned and gTTS raises still returns: [last_audio] is [None] and the
    history holds the learner's turn and the tutor's turn. *)
Theorem text_to_speech_never_raises (env : Env) :
  (forall (S : Type) (text : pyval) (s : S),
     (exists a, text_to_speech env text s = (Ok a, s))
     /\ (forall buf, gtts_mp3 env text = Ok buf ->
                     text_to_speech env text s = (Ok (Some buf), s))
     /\ (forall e, gtts_mp3 env text = Raise e ->
                   text_to_speech env text s = (Ok None, s)))
  /\ (forall user_id b w heard ev score feedback next_topic next_level lesson
             st' e,
        transcribed env b heard ->
        graded env heard (current_topic (session w)) ev score ->
        persisted env user_id score w (Ok tt) st' ->
        planned env score (current_topic (session w)) next_topic next_level ->
        taught env next_topic next_level lesson ->
        dict_get "feedback" ev = Some feedback ->
        gtts_mp3 env (PStr (full_resp score feedback lesson)) = Raise e ->
        exists w',
          cycle env user_id (Some b) w = (Ok tt, w')
          /\ last_audio (session w') = None
          /\ history (session w') =
             (history (session w)
              ++ [ mk_message "user" heard;
                   mk_message "assistant"
                     (PStr (full_resp score feedback lesson)) ])%list).
Proof.
  split.
  - intros S text s. rewrite text_to_speech_run.
    split; [eauto|]. split.
    + intros buf ->. reflexivity.
    + intros e ->. reflexivity.
  - intros user_id b w heard ev score feedback nt nl lesson st' e
           Hh Hg Hp Hpl Hl Hf Hsp.
    eexists. split; [eapply cycle_completes; eauto|].
    rewrite Hsp. simpl. auto.
Qed.

(** gTTS cannot connect, on a text and in the scenario. *)
Lemma text_to_speech_never_raises_witness :
  text_to_speech mute_env (PStr "Hello") student_world = (Ok None, student_world)
  /\ exists w',
       cycle mute_env (Some 1) (Some recording) student_world = (Ok tt, w')
       /\ last_audio (session w') = None
       /\ history (session w') =
          [ first_lesson; mk_message "user" answer_heard;
            mk_message "assistant"
              (PStr (full_resp (PInt 80) (PStr "Good") (PStr loops_lesson))) ].
Proof.
  destruct (text_to_speech_never_raises mute_env) as [Htts Hcycle].
  split.
  - apply (proj2 (proj2 (Htts World (PStr "Hello") student_world))
             (SpeechError "connection refused")).
    reflexivity.
  - apply (Hcycle (Some 1) recording student_world answer_heard
             [("score", PInt 80); ("feedback", PStr "Good")] (PInt 80)
             (PStr "Good") (PStr "Loops") (PStr "Intermediate")
             (PStr loops_lesson)
             (snd (save_progress 1 (PStr "Python Basics") (PStr "Beginner")
                     (PInt 80) "2024-05-01 10:00:00" student_store))
             (SpeechError "connection refused")).
    + split; [reflexivity|]. split; [|reflexivity].
      exists (Some "A variable stores a value"). split; reflexivity.
    + split; reflexivity.
    + reflexivity.
    + exists [("next_topic", PStr "Loops"); ("difficulty", PStr "Intermediate")].
      split; [|split]; reflexivity.
    + exists (Some loops_lesson). split; reflexivity.
    + reflexivity.
    + reflexivity.
Defined.

(** ** The end-to-end scenario

    A first run of the script on a new database file: Student logs in, the
    greeting is shown, the recorded answer is graded 80.  The store gains
    the user and one entry for Python Basics at Beginner with score 80, the
    topic becomes Loops at Intermediate. *)
Example end_to_end_scenario :
  script_run (scenario_env 80) "2024-05-01 09:59:00" "Student" (Some recording)
             (mk_world initial_session (mk_store None true))
  = (Ok tt,
     mk_world
       (mk_session
          [ mk_message "assistant" (PStr loops_lesson);
            mk_message "user" answer_heard;
            mk_message "assistant"
              (PStr ("(80/100 - Good) " ++ loops_lesson)) ]
          (PStr "Loops") (PStr "Intermediate") (PInt 80) (Some mp3_bytes))
       (mk_store
          (Some (mk_db [mk_user 1 "Student" "2024-05-01 09:59:00"] 1
                       [mk_log 1 1 (SqlText "Python Basics") (SqlText "Beginner")
                               (SqlInt 80) "2024-05-01 10:00:00"] 1))
          true)).
Proof. reflexivity. Qed.

(* ================================================================== *)
(** * Further properties of the store *)

Lemma max_rowid_nonneg ids : 0 <= max_rowid ids.
Proof. induction ids as [|x ids IH]; simpl; lia. Qed.

Lemma max_rowid_ge ids x : In x ids -> x <= max_rowid ids.
Proof.
  induction ids as [|y ids IH]; simpl; [tauto|].
  intros [->|H]; [lia|]. specialize (IH H). lia.
Qed.

(** The key [next_rowid] gives is new, positive and fits in 64 bits. *)
Lemma next_rowid_fresh seq ids id :
  next_rowid seq ids = Ok id ->
  seq < id /\ (forall x, In x ids -> x < id) /\ 1 <= id <= int64_max.
Proof.
  unfold next_rowid.
  destruct (Z.max seq (max_rowid ids) <? int64_max) eqn:E; [|discriminate].
  intros H; inversion H; subst. apply Z.ltb_lt in E.
  pose proof (max_rowid_nonneg ids). split; [lia|]. split; [|lia].
  intros x Hx. apply max_rowid_ge in Hx. lia.
Qed.

Lemma NoDup_snoc {A} (l : list A) x : NoDup l -> ~ In x l -> NoDup (l ++ [x]).
Proof.
  induction l as [|a l IH]; simpl; intros Hnd Hx.
  - constructor; [tauto|constructor].
  - inversion Hnd; subst. constructor.
    + rewrite in_app_iff. simpl. intros [H|[H|[]]]; [tauto|]. subst. tauto.
    + apply IH; [assumption|tauto].
Qed.

Lemma StronglySorted_snoc l x :
  StronglySorted Z.lt l -> (forall y, In y l -> y < x) ->
  StronglySorted Z.lt (l ++ [x]).
Proof.
  induction l as [|a l IH]; simpl; intros Hs Hx.
  - constructor; constructor.
  - inversion Hs; subst. constructor.
    + apply IH; auto.
    + rewrite Forall_app. split; [assumption|].
      constructor; [apply Hx; auto|constructor].
Qed.

(** Every way [get_or_create_user] returns, with the key it took. *)
Lemma get_or_create_user_cases name now st uid st' :
  get_or_create_user name now st = (Ok uid, st') ->
  exists db, open_db st = Ok db /\
    ((exists r, find (named name) (users db) = Some r /\
                uid = user_id r /\ st' = st)
     \/ (find (named name) (users db) = None
         /\ next_rowid (users_seq db) (map user_id (users db)) = Ok uid
         /\ st' = commit (mk_db (users db ++ [mk_user uid name now]) uid
                                (logs db) (logs_seq db)) st)).
Proof.
  unfold get_or_create_user, select_user_id, insert_user.
  destruct (open_db st) as [db|e] eqn:Ho; [|discriminate].
  destruct (find (named name) (users db)) as [r|] eqn:Hf; simpl.
  - intros H; inversion H; subst. exists db. split; auto. left. eauto.
  - rewrite (find_none_existsb _ _ Hf).
    destruct (next_rowid (users_seq db) (map user_id (users db))) as [id|e]
      eqn:Hn; [|discriminate].
    intros H; inversion H; subst. exists db. split; auto.
Qed.

(** Whatever [get_or_create_user] raises, the store is left as it was. *)
Lemma get_or_create_user_raises_unchanged name now st e st' :
  get_or_create_user name now st = (Raise e, st') -> st' = st.
Proof.
  unfold get_or_create_user.
  destruct (open_db st) as [db|e0]; [|intros H; inversion H; reflexivity].
  destruct (select_user_id name db); [discriminate|].
  destruct (insert_user name now db) as [[uid db']|e1];
    intros H; inversion H; reflexivity.
Qed.

(** Every way [save_progress] returns, with the key it took. *)
Lemma save_progress_cases uid topic level score now st st' :
  save_progress uid topic level score now st = (Ok tt, st') ->
  exists db id t d s,
    open_db st = Ok db /\ in_int64 uid = true
    /\ sql_bind topic = Ok t /\ sql_bind level = Ok d /\ sql_bind score = Ok s
    /\ next_rowid (logs_seq db) (map log_id (logs db)) = Ok id
    /\ st' = commit (mk_db (users db) (users_seq db)
                           (logs db ++ [mk_log id uid t d s now]) id) st.
Proof.
  unfold save_progress, insert_log.
  destruct (open_db st) as [db|e] eqn:Ho; [|discriminate].
  simpl. destruct (in_int64 uid) eqn:Hu; [|discriminate].
  destruct (sql_bind topic) as [t|e]; [|discriminate].
  destruct (sql_bind level) as [d|e]; [|discriminate].
  destruct (sql_bind score) as [s|e]; [|discriminate].
  destruct (next_rowid (logs_seq db) (map log_id (logs db))) as [id|e] eqn:Hn;
    [|discriminate].
  intros H; inversion H; subst. exists db, id, t, d, s. auto 10.
Qed.

Lemma get_user_stats_unchanged uid st : snd (get_user_stats uid st) = st.
Proof.
  unfold get_user_stats. destruct (reachable st); [|reflexivity].
  destruct (file st); [|reflexivity].
  destruct (sql_bind (PInt uid)); reflexivity.
Qed.

Lemma users_keyed_insert db name now id :
  users_keyed db ->
  next_rowid (users_seq db) (map user_id (users db)) = Ok id ->
  users_keyed (mk_db (users db ++ [mk_user id name now]) id
                     (logs db) (logs_seq db)).
Proof.
  intros (Hnd & Hall & Hseq) Hn.
  destruct (next_rowid_fresh _ _ _ Hn) as (Hlt & Hnew & Hid).
  unfold users_keyed; simpl. rewrite map_app; simpl. repeat split.
  - apply NoDup_snoc; [assumption|]. intros Hin. apply Hnew in Hin. lia.
  - rewrite Forall_app. split.
    + eapply Forall_impl; [|exact Hall]. simpl. intros r Hr. lia.
    + constructor; [simpl; lia|constructor].
  - lia.
  - lia.
Qed.

Lemma logs_keyed_insert db row :
  logs_keyed db ->
  next_rowid (logs_seq db) (map log_id (logs db)) = Ok (log_id row) ->
  logs_keyed (mk_db (users db) (users_seq db) (logs db ++ [row]) (log_id row)).
Proof.
  intros (Hs & Hall & Hseq) Hn.
  destruct (next_rowid_fresh _ _ _ Hn) as (Hlt & Hnew & Hid).
  unfold logs_keyed; simpl. rewrite map_app; simpl. repeat split.
  - apply StronglySorted_snoc; assumption.
  - rewrite Forall_app. split.
    + eapply Forall_impl; [|exact Hall]. simpl. intros r Hr. lia.
    + constructor; [lia|constructor].
  - lia.
  - lia.
Qed.

Lemma init_db_keeps_wf st : store_wf st -> store_wf (snd (init_db st)).
Proof.
  unfold init_db, store_wf. destruct (reachable st); simpl; auto.
  destruct (file st) eqn:Hf; simpl; [rewrite Hf; auto|].
  intros _. unfold db_wf, names_unique, users_keyed, logs_keyed; simpl.
  unfold int64_max.
  repeat split; try constructor; try lia.
Qed.

Lemma get_or_create_user_keeps_wf name now st :
  store_wf st -> store_wf (snd (get_or_create_user name now st)).
Proof.
  intros Hwf.
  destruct (get_or_create_user name now st) as [[uid|e] st'] eqn:Hcall; simpl.
  - apply get_or_create_user_cases in Hcall.
    destruct Hcall as (db & Ho & [(r & _ & _ & ->)|(Hf & Hn & ->)]);
      [exact Hwf|].
    destruct (open_db_inv _ _ Ho) as [_ Hfile].
    unfold store_wf in *. rewrite Hfile in Hwf. simpl.
    destruct Hwf as (Hnames & Hkeys & Hlogs). split; [|split].
    + apply names_unique_insert; assumption.
    + apply users_keyed_insert; assumption.
    + exact Hlogs.
  - apply get_or_create_user_raises_unchanged in Hcall. subst. exact Hwf.
Qed.

Lemma save_progress_keeps_wf uid topic level score now st :
  store_wf st -> store_wf (snd (save_progress uid topic level score now st)).
Proof.
  intros Hwf.
  destruct (save_progress uid topic level score now st) as [[[]|e] st'] eqn:H;
    simpl.
  - apply save_progress_cases in H.
    destruct H as (db & id & t & d & s & Ho & _ & _ & _ & _ & Hn & ->).
    destruct (open_db_inv _ _ Ho) as [_ Hfile].
    unfold store_wf in *. rewrite Hfile in Hwf. simpl.
    destruct Hwf as (Hnames & Hkeys & Hlogs). split; [|split].
    + exact Hnames.
    + exact Hkeys.
    + apply (logs_keyed_insert db (mk_log id uid t d s now)); assumption.
  - apply save_progress_raises_unchanged in H. subst. exact Hwf.
Qed.

Lemma student_store_wf : store_wf student_store.
Proof.
  unfold store_wf, db_wf, names_unique, users_keyed, logs_keyed; simpl.
  unfold int64_max.
  repeat split; repeat constructor; simpl; try tauto; lia.
Qed.

Lemma class_store_wf : store_wf class_store.
Proof.
  unfold store_wf, db_wf, names_unique, users_keyed, logs_keyed; simpl.
  unfold int64_max.
  repeat split; repeat constructor; simpl; try lia;
    intros H; repeat (destruct H as [H|H]; try discriminate); auto.
Qed.

(** [X1] [init_db] creates the tables once.  On a store that cannot be
    reached it raises and changes nothing.  On a reachable store it returns
    and the store opens afterwards; a file that already has its tables is
    left exactly as it is, rows included, a missing file gets the two empty
    tables, and running [init_db] again changes nothing. *)
Theorem init_db_creates_once (st : Store) :
  (reachable st = false -> init_db st = (Raise OperationalError, st))
  /\ (reachable st = true ->
      exists st',
        init_db st = (Ok tt, st')
        /\ (exists db, open_db st' = Ok db)
        /\ (forall db, file st = Some db -> st' = st)
        /\ (file st = None -> file st' = Some empty_db)
        /\ init_db st' = (Ok tt, st')).
Proof.
  split; intros Hr; unfold init_db; rewrite Hr; [reflexivity|].
  destruct (file st) as [db|] eqn:Hf.
  - exists st. split; [reflexivity|]. split.
    + exists db. unfold open_db. rewrite Hr, Hf. reflexivity.
    + split; [reflexivity|]. split; [discriminate|].
      rewrite Hr, Hf. reflexivity.
  - exists (commit empty_db st). split; [reflexivity|]. split.
    + exists empty_db. apply open_db_commit. exact Hr.
    + split; [discriminate|]. split; [reflexivity|].
      simpl. rewrite Hr. reflexivity.
Qed.

Lemma init_db_creates_once_witness :
  exists st',
    init_db (mk_store None true) = (Ok tt, st')
    /\ (exists db, open_db st' = Ok db)
    /\ (forall db, file (mk_store None true) = Some db -> st' = mk_store None true)
    /\ (file (mk_store None true) = None -> file st' = Some empty_db)
    /\ init_db st' = (Ok tt, st').
Proof.
  apply (proj2 (init_db_creates_once (mk_store None true))). reflexivity.
Defined.

(** [X2] The store functions keep a database well formed: names of users
    stay unique, user ids stay distinct, between 1 and the table's counter
    and within 64 bits, and log ids keep growing along the table, whatever
    [init_db], [get_or_create_user] and [save_progress] are called with
    and whether they return or raise.  A new file is well formed. *)
Theorem store_functions_keep_wf (st : Store) :
  store_wf st ->
  store_wf (snd (init_db st))
  /\ (forall name now, store_wf (snd (get_or_create_user name now st)))
  /\ (forall uid topic level score now,
        store_wf (snd (save_progress uid topic level score now st)))
  /\ (forall uid, store_wf (snd (get_user_stats uid st))).
Proof.
  intros Hwf. split; [apply init_db_keeps_wf; exact Hwf|]. split; [|split].
  - intros name now. apply get_or_create_user_keeps_wf. exact Hwf.
  - intros uid topic level score now. apply save_progress_keeps_wf. exact Hwf.
  - intros uid. rewrite get_user_stats_unchanged. exact Hwf.
Qed.

Lemma store_functions_keep_wf_witness :
  store_wf (snd (get_or_create_user "Ada" "2024-05-01 10:00:10" student_store))
  /\ store_wf (snd (save_progress 1 (PStr "Python Basics") (PStr "Beginner")
                      (PInt 80) "2024-05-01 10:00:00" student_store)).
Proof.
  destruct (store_functions_keep_wf student_store student_store_wf)
    as (_ & Hlogin & Hsave & _).
  split; [apply Hlogin|apply Hsave].
Defined.

Lemma wf_user_key st db r :
  store_wf st -> file st = Some db -> In r (users db) ->
  1 <= user_id r <= int64_max.
Proof.
  unfold store_wf. intros Hwf Hfile Hin. rewrite Hfile in Hwf.
  destruct Hwf as (_ & (_ & Hall & Hseq) & _).
  rewrite Forall_forall in Hall. specialize (Hall r Hin). simpl in Hall. lia.
Qed.

Lemma in_int64_key n : 1 <= n <= int64_max -> in_int64 n = true.
Proof.
  intros H. unfold in_int64. apply andb_true_iff. split; apply Z.leb_le.
  - unfold int64_min. lia.
  - lia.
Qed.

(** [X3] On a well-formed database the id [get_or_create_user] returns is a
    usable key: between 1 and the largest 64-bit integer, so it is never 0
    (the test [if user_id:] of the cycle passes) and SQLite binds it.  The
    id of a user created by the call is larger than every id in the table
    before. *)
Theorem login_returns_a_usable_key
    (name now : string) (st : Store) (uid : Z) (st' : Store) :
  store_wf st ->
  get_or_create_user name now st = (Ok uid, st') ->
  1 <= uid <= int64_max
  /\ truthy (PInt uid) = true
  /\ in_int64 uid = true
  /\ (find (named name) (users_of st) = None ->
      forall r, In r (users_of st) -> user_id r < uid).
Proof.
  intros Hwf Hcall. apply get_or_create_user_cases in Hcall.
  destruct Hcall as (db & Ho & Hcase).
  destruct (open_db_inv _ _ Ho) as [_ Hfile].
  assert (Hkey : 1 <= uid <= int64_max).
  { destruct Hcase as [(r & Hf & -> & _)|(_ & Hn & _)].
    - apply find_some in Hf. destruct Hf as [Hin _].
      eapply wf_user_key; eauto.
    - apply next_rowid_fresh in Hn. tauto. }
  split; [exact Hkey|]. split; [apply truthy_user_id; lia|].
  split; [apply in_int64_key; exact Hkey|].
  unfold users_of. rewrite Hfile. intros Hnone r Hin.
  destruct Hcase as [(r0 & Hf & _)|(_ & Hn & _)].
  - rewrite Hf in Hnone. discriminate.
  - apply next_rowid_fresh in Hn. destruct Hn as (_ & Hnew & _).
    apply Hnew. apply in_map. exact Hin.
Qed.

Lemma login_returns_a_usable_key_witness :
  1 <= 2 <= int64_max
  /\ truthy (PInt 2) = true
  /\ in_int64 2 = true
  /\ (find (named "Ada") (users_of student_store) = None ->
      forall r, In r (users_of student_store) -> user_id r < 2).
Proof.
  apply (login_returns_a_usable_key "Ada" "2024-05-01 10:00:10" student_store 2
           (snd (get_or_create_user "Ada" "2024-05-01 10:00:10" student_store))).
  - exact student_store_wf.
  - reflexivity.
Defined.

Lemma NoDup_map_inj_in {A B} (f : A -> B) l x y :
  NoDup (map f l) -> In x l -> In y l -> f x = f y -> x = y.
Proof.
  induction l as [|a l IH]; simpl; [tauto|].
  intros Hnd Hx Hy Hxy. inversion Hnd as [|? ? Hnotin Hnd']; subst.
  destruct Hx as [->|Hx]; destruct Hy as [->|Hy]; auto.
  - exfalso. apply Hnotin. rewrite Hxy. apply in_map. exact Hy.
  - exfalso. apply Hnotin. rewrite <- Hxy. apply in_map. exact Hx.
Qed.

(** A login only adds to [users]. *)
Lemma get_or_create_user_keeps_rows name now st r :
  In r (users_of st) -> In r (users_of (snd (get_or_create_user name now st))).
Proof.
  intros Hin.
  destruct (get_or_create_user name now st) as [[uid|e] st'] eqn:Hcall; simpl.
  - apply get_or_create_user_cases in Hcall.
    destruct Hcall as (db & Ho & [(r0 & _ & _ & ->)|(_ & _ & ->)]);
      [exact Hin|].
    destruct (open_db_inv _ _ Ho) as [_ Hfile].
    unfold users_of in *. rewrite Hfile in Hin. simpl.
    apply in_or_app. left. exact Hin.
  - apply get_or_create_user_raises_unchanged in Hcall. subst. exact Hin.
Qed.

(** The row a login returned the id of. *)
Lemma get_or_create_user_row name now st uid st' :
  get_or_create_user name now st = (Ok uid, st') ->
  exists r, In r (users_of st') /\ user_name r = name /\ user_id r = uid.
Proof.
  intros Hcall.
  destruct (get_or_create_user_registered _ _ _ _ _ Hcall)
    as (db' & r & Ho' & Hf' & Hid).
  destruct (open_db_inv _ _ Ho') as [_ Hfile'].
  destruct (find_some_named _ _ _ Hf') as [Hin Hn].
  exists r. unfold users_of. rewrite Hfile'. auto.
Qed.

(** [X4] Different names log in as different users: on a well-formed
    database, two calls of [get_or_create_user] with different names return
    different ids, whether the names were registered before or not. *)
Theorem different_names_get_different_ids
    (name1 name2 now1 now2 : string) (st st1 st2 : Store) (uid1 uid2 : Z) :
  store_wf st ->
  name1 <> name2 ->
  get_or_create_user name1 now1 st = (Ok uid1, st1) ->
  get_or_create_user name2 now2 st1 = (Ok uid2, st2) ->
  uid1 <> uid2.
Proof.
  intros Hwf Hne H1 H2 Heq.
  assert (Hwf1 : store_wf st1).
  { pose proof (get_or_create_user_keeps_wf name1 now1 st Hwf) as H.
    rewrite H1 in H. exact H. }
  assert (Hwf2 : store_wf st2).
  { pose proof (get_or_create_user_keeps_wf name2 now2 st1 Hwf1) as H.
    rewrite H2 in H. exact H. }
  destruct (get_or_create_user_row _ _ _ _ _ H1) as (r1 & Hin1 & Hn1 & Hid1).
  destruct (get_or_create_user_row _ _ _ _ _ H2) as (r2 & Hin2 & Hn2 & Hid2).
  pose proof (get_or_create_user_keeps_rows name2 now2 st1 r1 Hin1) as Hin1'.
  rewrite H2 in Hin1'. simpl in Hin1'.
  unfold store_wf, users_of in *.
  destruct (file st2) as [db2|]; [|contradiction].
  destruct Hwf2 as (_ & (Hnd & _) & _).
  assert (Hr : r1 = r2).
  { apply (NoDup_map_inj_in user_id (users db2)); auto. congruence. }
  apply Hne. congruence.
Qed.

Lemma different_names_get_different_ids_witness :
  get_or_create_user "Student" "2024-05-02 08:00:00" student_store
    = (Ok 1, student_store)
  /\ fst (get_or_create_user "Ada" "2024-05-01 10:00:10" student_store) = Ok 2
  /\ 1 <> 2.
Proof.
  split; [reflexivity|]. split; [reflexivity|].
  apply (different_names_get_different_ids "Student" "Ada"
           "2024-05-02 08:00:00" "2024-05-01 10:00:10"
           student_store student_store
           (snd (get_or_create_user "Ada" "2024-05-01 10:00:10" student_store))).
  - exact student_store_wf.
  - discriminate.
  - reflexivity.
  - reflexivity.
Defined.

(** [X5] Each store function writes its own table only.  A login leaves
    [logs] as it is, [save_progress] leaves [users] as it is, and
    [get_user_stats] leaves the whole store as it is, whether the call
    returns or raises; none of them changes whether the store can be
    reached. *)
Theorem store_functions_write_their_own_table (st : Store) :
  (forall name now,
     logs_of (snd (get_or_create_user name now st)) = logs_of st
     /\ reachable (snd (get_or_create_user name now st)) = reachable st)
  /\ (forall uid topic level score now,
        users_of (snd (save_progress uid topic level score now st)) = users_of st
        /\ reachable (snd (save_progress uid topic level score now st))
           = reachable st)
  /\ (forall uid, snd (get_user_stats uid st) = st).
Proof.
  split; [|split].
  - intros name now.
    destruct (get_or_create_user name now st) as [[uid|e] st'] eqn:Hcall; simpl.
    + apply get_or_create_user_cases in Hcall.
      destruct Hcall as (db & Ho & [(r & _ & _ & ->)|(_ & _ & ->)]); [auto|].
      destruct (open_db_inv _ _ Ho) as [_ Hfile].
      unfold logs_of. rewrite Hfile. simpl. auto.
    + apply get_or_create_user_raises_unchanged in Hcall. subst. auto.
  - intros uid topic level score now.
    destruct (save_progress uid topic level score now st) as [[[]|e] st'] eqn:H;
      simpl.
    + apply save_progress_cases in H.
      destruct H as (db & id & t & d & s & Ho & _ & _ & _ & _ & _ & ->).
      destruct (open_db_inv _ _ Ho) as [_ Hfile].
      unfold users_of. rewrite Hfile. simpl. auto.
    + apply save_progress_raises_unchanged in H. subst. auto.
  - intros uid. apply get_user_stats_unchanged.
Qed.

Lemma sql_bind_bindable v :
  (exists s, sql_bind v = Ok s) <-> bindable v = true.
Proof.
  destruct v as [|b|n|s]; simpl.
  - split; eauto.
  - split; eauto.
  - destruct (in_int64 n); split; eauto.
    + intros [s H]. discriminate.
    + discriminate.
  - split; eauto.
Qed.

Lemma sql_bind_not_bindable v :
  bindable v = false -> sql_bind v = Raise OverflowError.
Proof.
  destruct v as [|b|n|s]; simpl; try discriminate. intros ->. reflexivity.
Qed.

(** [X6] When [save_progress] returns, for a topic, a difficulty and a
    score that are each [None], a boolean, an integer or a text (the values
    of the embedding: an array, an object or a float from [json.loads] and
    a text that cannot be encoded are not among them) and a database that,
    once opened, accepts the INSERT.  For such values it returns exactly
    when the store opens, the key of [logs] has room, and the user id and
    every integer among topic, difficulty and score fit in 64 bits.  On a
    store that opens, an integer that does not fit makes it raise
    [OverflowError]; in every case where it raises, nothing is written. *)
Theorem save_progress_returns_exactly_when
    (uid : Z) (topic level score : pyval) (now : string) (st : Store) :
  ((exists st', save_progress uid topic level score now st = (Ok tt, st'))
   <-> (exists db, open_db st = Ok db /\ logs_have_room db)
       /\ in_int64 uid && bindable topic && bindable level && bindable score
          = true)
  /\ (forall db, open_db st = Ok db ->
        in_int64 uid && bindable topic && bindable level && bindable score
          = false ->
        save_progress uid topic level score now st = (Raise OverflowError, st))
  /\ (forall e st', save_progress uid topic level score now st = (Raise e, st')
                    -> st' = st).
Proof.
  split; [split|split].
  - intros [st' H]. apply save_progress_cases in H.
    destruct H as (db & id & t & d & s & Ho & Hu & Ht & Hd & Hs & Hn & _).
    split.
    + exists db. split; [exact Ho|]. unfold logs_have_room.
      unfold next_rowid in Hn.
      destruct (Z.max (logs_seq db) (max_rowid (map log_id (logs db)))
                <? int64_max) eqn:E; [|discriminate].
      apply Z.ltb_lt. exact E.
    + rewrite Hu.
      rewrite (proj1 (sql_bind_bindable topic) (ex_intro _ t Ht)).
      rewrite (proj1 (sql_bind_bindable level) (ex_intro _ d Hd)).
      rewrite (proj1 (sql_bind_bindable score) (ex_intro _ s Hs)).
      reflexivity.
  - intros [(db & Ho & Hroom) Hb].
    apply andb_true_iff in Hb. destruct Hb as [Hb Hs].
    apply andb_true_iff in Hb. destruct Hb as [Hb Hd].
    apply andb_true_iff in Hb. destruct Hb as [Hu Ht].
    apply sql_bind_bindable in Ht, Hd, Hs.
    destruct Ht as [t Ht]. destruct Hd as [d Hd]. destruct Hs as [s Hs].
    eexists. eapply save_progress_appends; eauto.
  - intros db Ho Hb. unfold save_progress, insert_log. rewrite Ho. simpl.
    destruct (in_int64 uid); [|reflexivity]. simpl in Hb.
    destruct (bindable topic) eqn:Ht.
    2:{ rewrite (sql_bind_not_bindable _ Ht). reflexivity. }
    apply sql_bind_bindable in Ht. destruct Ht as [t ->]. simpl in Hb.
    destruct (bindable level) eqn:Hd.
    2:{ rewrite (sql_bind_not_bindable _ Hd). reflexivity. }
    apply sql_bind_bindable in Hd. destruct Hd as [d ->]. simpl in Hb.
    rewrite (sql_bind_not_bindable _ Hb). reflexivity.
  - intros e st'. apply save_progress_raises_unchanged.
Qed.

(** A score of 2 to the 63 on Student's database. *)
Lemma save_progress_returns_exactly_when_witness :
  save_progress 1 (PStr "Python Basics") (PStr "Beginner") (PInt (2 ^ 63))
                "2024-05-01 10:00:00" student_store
  = (Raise OverflowError, student_store).
Proof.
  apply (proj1 (proj2 (save_progress_returns_exactly_when
                         1 (PStr "Python Basics") (PStr "Beginner")
                         (PInt (2 ^ 63)) "2024-05-01 10:00:00" student_store))
           student_db).
  - reflexivity.
  - reflexivity.
Defined.

(** [X7] The histories of different users do not mix: a call of
    [save_progress] for one user id that returned leaves what
    [get_user_stats] answers for every other user id as it was. *)
Theorem saves_of_other_users_are_invisible
    (uid other : Z) (topic level score : pyval) (now : string)
    (st st' : Store) :
  other <> uid ->
  save_progress other topic level score now st = (Ok tt, st') ->
  fst (get_user_stats uid st') = fst (get_user_stats uid st).
Proof.
  intros Hne Hsave. apply save_progress_cases in Hsave.
  destruct Hsave as (db & id & t & d & s & Ho & _ & _ & _ & _ & _ & ->).
  destruct (open_db_inv _ _ Ho) as [Hr Hfile].
  unfold get_user_stats. simpl. rewrite Hr, Hfile.
  destruct (in_int64 uid); [|reflexivity]. simpl.
  destruct db as [us useq rows seq]. simpl.
  rewrite (select_stats_app uid us useq rows _ seq). simpl.
  apply Z.eqb_neq in Hne. rewrite Hne. simpl. rewrite app_nil_r. reflexivity.
Qed.

(** Ada answers; Student's history is what it was. *)
Lemma saves_of_other_users_are_invisible_witness :
  fst (get_user_stats 1
         (snd (save_progress 2 (PStr "Loops") (PStr "Intermediate") (PInt 60)
                 "2024-05-01 10:01:00" class_store)))
  = Ok [mk_frame_row (FStr "Python Basics") (FInt 80) "2024-05-01 10:00:00"].
Proof.
  rewrite (saves_of_other_users_are_invisible 1 2 (PStr "Loops")
             (PStr "Intermediate") (PInt 60) "2024-05-01 10:01:00" class_store
             (snd (save_progress 2 (PStr "Loops") (PStr "Intermediate") (PInt 60)
                     "2024-05-01 10:01:00" class_store))).
  - reflexivity.
  - discriminate.
  - reflexivity.
Defined.

(* ================================================================== *)
(** * Further properties of the script *)

(** ** Every way a cycle ends *)

Lemma cycle_runs_to_an_end env user_id b w :
  client env = true ->
  cycle_ends env user_id b w (fst (cycle env user_id (Some b) w))
                             (snd (cycle env user_id (Some b) w)).
Proof.
  intros Hc.
  destruct (generate_from_audio env b transcribe_prompt) as [t|e] eqn:Ht.
  2:{ rewrite (cycle_transcription_raises _ _ _ _ e Hc Ht). simpl.
      apply ends_at_transcription. exact Ht. }
  destruct (truthy (text_val t)) eqn:Hu.
  2:{ rewrite (cycle_no_text _ _ _ _ t Ht Hu). simpl.
      eapply ends_without_text; eauto. }
  assert (Hh : transcribed env b (text_val t)).
  { split; [exact Hc|]. split; [eauto|exact Hu]. }
  destruct (evaluation_cases env (text_val t) (current_topic (session w)))
    as [[e Hev]|(ev & score & Hg)].
  { rewrite (cycle_evaluation_raises _ _ _ _ _ _ Hh Hev). simpl.
    apply ends_at_evaluation; assumption. }
  destruct (persisted_total env user_id score w) as (r & st' & Hp).
  destruct r as [[]|e].
  2:{ rewrite (cycle_save_raises _ _ _ _ _ _ _ _ _ Hh Hg Hp). simpl.
      eapply ends_at_save; eauto. }
  set (plan := generate_json env
                 (curriculum_prompt score (current_topic (session w)))).
  destruct (subscript plan "next_topic") as [nt|e] eqn:Hnt.
  2:{ rewrite (cycle_curriculum_raises _ _ _ _ _ _ _ _ e Hh Hg Hp Hnt). simpl.
      eapply ends_at_curriculum; eauto. }
  destruct (subscript plan "difficulty") as [nl|e] eqn:Hnl.
  2:{ assert (Hlv : level_missing env score (current_topic (session w)) nt e)
        by (split; assumption).
      rewrite (cycle_level_missing _ _ _ _ _ _ _ _ _ _ Hh Hg Hp Hlv). simpl.
      eapply ends_at_level; eauto. }
  assert (Hpl : planned env score (current_topic (session w)) nt nl).
  { destruct (subscript_ok _ _ _ Hnt) as (fields & Hr & Hk).
    exists fields. split; [exact Hr|]. split; [exact Hk|].
    subst plan. rewrite Hr in Hnl. simpl in Hnl.
    destruct (dict_get "difficulty" fields); [|discriminate].
    inversion Hnl; reflexivity. }
  destruct (generate_text env (tutor_prompt nt nl)) as [tl|e] eqn:Hl.
  2:{ rewrite (cycle_lesson_raises _ _ _ _ _ _ _ _ _ _ _ Hh Hg Hp Hpl Hl).
      simpl. eapply ends_at_lesson; eauto. }
  assert (Hta : taught env nt nl (text_val tl)) by (exists tl; auto).
  destruct (dict_get "feedback" ev) as [feedback|] eqn:Hf.
  2:{ rewrite (cycle_feedback_missing _ _ _ _ _ _ _ _ _ _ _ Hh Hg Hp Hpl Hta Hf).
      simpl. eapply ends_at_feedback; eauto. }
  rewrite (cycle_completes _ _ _ _ _ _ _ _ _ _ _ _ Hh Hg Hp Hpl Hta Hf). simpl.
  eapply ends_complete; eauto.
Qed.

Lemma cycle_ends_is_the_cycle env user_id b w r w' :
  client env = true ->
  cycle_ends env user_id b w r w' ->
  cycle env user_id (Some b) w = (r, w').
Proof.
  intros Hc Hend. destruct Hend.
  - apply cycle_transcription_raises; assumption.
  - eapply cycle_no_text; eauto.
  - apply cycle_evaluation_raises; assumption.
  - eapply cycle_save_raises; eauto.
  - eapply cycle_curriculum_raises; eauto.
  - eapply cycle_level_missing; eauto.
  - eapply cycle_lesson_raises; eauto.
  - eapply cycle_feedback_missing; eauto.
  - eapply cycle_completes; eauto.
Qed.

(** A cycle without a recording or without a client does nothing; any
    other cycle ends in one of the ways of [cycle_ends]. *)
Lemma cycle_outcome env user_id audio w :
  cycle env user_id audio w = (Ok tt, w)
  \/ exists b, audio = Some b /\ client env = true
       /\ cycle_ends env user_id b w (fst (cycle env user_id audio w))
                                     (snd (cycle env user_id audio w)).
Proof.
  destruct audio as [b|]; [|left; reflexivity].
  destruct (client env) eqn:Hc.
  - right. exists b. split; [reflexivity|]. split; [reflexivity|].
    apply cycle_runs_to_an_end. exact Hc.
  - left. apply cycle_no_client. exact Hc.
Qed.

(** What step 2 leaves in the store: the store as it was, or what a call
    of [save_progress] for the logged-in user returned. *)
Lemma persisted_store env user_id score w r st' :
  persisted env user_id score w r st' ->
  st' = store w
  \/ exists uid, user_id = Some uid /\ uid <> 0
       /\ save_progress uid (current_topic (session w)) (difficulty (session w))
                        score (clock env) (store w) = (Ok tt, st').
Proof.
  unfold persisted. destruct user_id as [uid|]; [|intros [_ ->]; auto].
  destruct (truthy (PInt uid)) eqn:Hu; [|intros [_ ->]; auto].
  destruct r as [[]|e].
  - intros H. right. exists uid. split; [reflexivity|]. split; [|exact H].
    intros ->. discriminate.
  - intros H. left. eapply save_progress_raises_unchanged; eauto.
Qed.

Lemma cycle_ends_store env user_id b w r w' :
  cycle_ends env user_id b w r w' ->
  store w' = store w
  \/ exists uid topic level score,
       user_id = Some uid /\ uid <> 0
       /\ save_progress uid topic level score (clock env) (store w)
          = (Ok tt, store w').
Proof.
  intros Hend.
  destruct Hend; simpl; auto;
    match goal with
    | H : persisted _ _ _ _ _ _ |- _ =>
        destruct (persisted_store _ _ _ _ _ _ H) as [->|(uid & Hu & Hnz & Hs)];
          [auto|right; eauto 10]
    end.
Qed.

(** The store a cycle leaves, whatever the cycle did. *)
Lemma cycle_store env user_id audio w :
  store (snd (cycle env user_id audio w)) = store w
  \/ exists uid topic level score,
       user_id = Some uid /\ uid <> 0
       /\ save_progress uid topic level score (clock env) (store w)
          = (Ok tt, store (snd (cycle env user_id audio w))).
Proof.
  destruct (cycle_outcome env user_id audio w) as [->|(b & _ & _ & Hend)].
  - left. reflexivity.
  - eapply cycle_ends_store; eauto.
Qed.

Ltac name_outcome r w' :=
  match goal with
  | H : cycle_ends ?env ?u ?b ?w (fst ?c) (snd ?c) |- _ =>
      remember (fst c) as r eqn:Hfst; remember (snd c) as w' eqn:Hsnd;
      clear Hfst Hsnd
  end.

(** [X8] The cycle only appends to the history, and at most two turns.
    Whatever the collaborators answer, the history after a run of the
    cycle is the history before followed by nothing, or by the learner's
    turn alone when a later statement raised, or by the learner's turn and
    the tutor's turn when the cycle returned. *)
Theorem cycle_only_appends_to_history
    (env : Env) (user_id : option Z) (audio : option bytes) (w : World) :
  exists added,
    history (session (snd (cycle env user_id audio w)))
      = (history (session w) ++ added)%list
    /\ (added = []
        \/ (exists heard e,
              added = [learner_turn heard] /\ truthy heard = true
              /\ fst (cycle env user_id audio w) = Raise e)
        \/ (exists heard score feedback lesson,
              added = [learner_turn heard; tutor_turn score feedback lesson]
              /\ truthy heard = true
              /\ fst (cycle env user_id audio w) = Ok tt)).
Proof.
  destruct (cycle_outcome env user_id audio w) as [->|(b & _ & _ & Hend)].
  { exists []. rewrite app_nil_r. auto. }
  name_outcome r w'.
  destruct Hend;
    try match goal with
      | H : transcribed _ _ _ |- _ =>
          let Hu := fresh "Hu" in destruct H as (_ & _ & Hu)
      end.
  - exists []. rewrite app_nil_r. auto.
  - exists []. rewrite app_nil_r. auto.
  - exists [learner_turn heard]. split; [reflexivity|]. right. left. eauto.
  - exists [learner_turn heard]. split; [reflexivity|]. right. left. eauto.
  - exists [learner_turn heard]. split; [reflexivity|]. right. left. eauto.
  - exists [learner_turn heard]. split; [reflexivity|]. right. left. eauto.
  - exists [learner_turn heard]. split; [reflexivity|]. right. left. eauto.
  - exists [learner_turn heard]. split; [reflexivity|]. right. left. eauto.
  - exists [learner_turn heard; tutor_turn score feedback lesson].
    split; [reflexivity|]. right. right. eauto 10.
Qed.

(** [X9] The cycle writes at most one entry, and only for the logged-in
    user.  Whatever the collaborators answer, a run of the cycle leaves
    [users] as it is and adds to [logs] nothing or one row; that row
    carries the user id the sidebar set and the time of the clock.  With
    no user id, or the id 0, the store is exactly as it was. *)
Theorem cycle_writes_at_most_one_entry
    (env : Env) (user_id : option Z) (audio : option bytes) (w : World) :
  users_of (store (snd (cycle env user_id audio w))) = users_of (store w)
  /\ reachable (store (snd (cycle env user_id audio w))) = reachable (store w)
  /\ (exists added,
        logs_of (store (snd (cycle env user_id audio w)))
          = (logs_of (store w) ++ added)%list
        /\ (List.length added <= 1)%nat
        /\ Forall (fun r => user_id = Some (log_user_id r)
                            /\ log_timestamp r = clock env) added)
  /\ (user_id = None \/ user_id = Some 0 ->
      store (snd (cycle env user_id audio w)) = store w).
Proof.
  destruct (cycle_store env user_id audio w)
    as [->|(uid & topic & level & score & -> & Hnz & Hsave)].
  { split; [reflexivity|]. split; [reflexivity|]. split; [|auto].
    exists []. rewrite app_nil_r. split; [reflexivity|].
    split; [simpl; lia|constructor]. }
  apply save_progress_cases in Hsave.
  destruct Hsave as (db & id & t & d & s & Ho & _ & _ & _ & _ & _ & Hst).
  destruct (open_db_inv _ _ Ho) as [_ Hfile].
  rewrite Hst. unfold users_of, logs_of. rewrite Hfile. simpl.
  split; [reflexivity|]. split; [reflexivity|]. split.
  - eexists. split; [reflexivity|]. split; [simpl; lia|].
    constructor; [simpl; auto|constructor].
  - intros [H|H]; [discriminate|]. inversion H. congruence.
Qed.

Lemma snoc_not_self {A} (l : list A) x : (l ++ [x])%list <> l.
Proof.
  intros H. apply (f_equal (@List.length A)) in H.
  rewrite length_app in H. simpl in H. lia.
Qed.

(** [X10] A cycle that stops early.  When the cycle raises, [last_audio]
    keeps its value: the audio is replaced only by a cycle that returned.
    And when the history did not grow, nothing changed at all: the cycle
    left before its first write to the session, with the world as it was. *)
Theorem early_exit_of_the_cycle
    (env : Env) (user_id : option Z) (audio : option bytes) (w : World) :
  (forall e, fst (cycle env user_id audio w) = Raise e ->
     last_audio (session (snd (cycle env user_id audio w)))
       = last_audio (session w))
  /\ (history (session (snd (cycle env user_id audio w))) = history (session w)
      -> snd (cycle env user_id audio w) = w).
Proof.
  destruct (cycle_outcome env user_id audio w) as [->|(b & _ & _ & Hend)].
  { split; [discriminate|reflexivity]. }
  name_outcome r w'.
  destruct Hend; (split; [intros e0 He0|intros Hh]);
    try reflexivity; try discriminate;
    try (exfalso; simpl in Hh; eapply snoc_not_self; exact Hh).
  exfalso. simpl in Hh.
  apply (f_equal (@List.length message)) in Hh.
  rewrite length_app in Hh. simpl in Hh. lia.
Qed.

(** The scenario with a curriculum that names no difficulty: the cycle
    raises and the audio of the greeting stays. *)
Lemma early_exit_of_the_cycle_witness :
  last_audio
    (session (snd (cycle topic_only_env (Some 1) (Some recording) student_world)))
  = Some mp3_bytes.
Proof.
  apply (proj1 (early_exit_of_the_cycle topic_only_env (Some 1)
                  (Some recording) student_world) (KeyError "difficulty")).
  reflexivity.
Defined.

(** The same end with another synthesiser, up to the audio. *)
Lemma cycle_ends_with_speech g env user_id b w r w' :
  cycle_ends env user_id b w r w' ->
  exists w'',
    cycle_ends (with_speech g env) user_id b w r w''
    /\ history (session w'') = history (session w')
    /\ current_topic (session w'') = current_topic (session w')
    /\ difficulty (session w'') = difficulty (session w')
    /\ mastery_score (session w'') = mastery_score (session w')
    /\ store w'' = store w'.
Proof.
  intros Hend. destruct Hend.
  - eexists. split; [apply ends_at_transcription; eassumption|]. auto.
  - eexists. split; [eapply ends_without_text; eassumption|]. auto.
  - eexists. split; [eapply ends_at_evaluation; eassumption|]. auto.
  - eexists. split; [eapply ends_at_save; eassumption|]. auto.
  - eexists. split; [eapply ends_at_curriculum; eassumption|]. auto.
  - eexists. split; [eapply ends_at_level; eassumption|]. auto.
  - eexists. split; [eapply ends_at_lesson; eassumption|]. auto.
  - eexists. split; [eapply ends_at_feedback; eassumption|]. auto.
  - eexists. split; [eapply ends_complete; eassumption|]. simpl. auto.
Qed.

(** [X11] Speech does not steer the cycle.  Replace gTTS by any other
    synthesiser, failing or not: the cycle returns or raises the same, and
    leaves the same history, topic, difficulty, score and store; only
    [last_audio] can differ. *)
Theorem speech_does_not_steer_the_cycle
    (env : Env) (g : pyval -> result bytes) (user_id : option Z)
    (audio : option bytes) (w : World) :
  fst (cycle (with_speech g env) user_id audio w)
    = fst (cycle env user_id audio w)
  /\ history (session (snd (cycle (with_speech g env) user_id audio w)))
     = history (session (snd (cycle env user_id audio w)))
  /\ current_topic (session (snd (cycle (with_speech g env) user_id audio w)))
     = current_topic (session (snd (cycle env user_id audio w)))
  /\ difficulty (session (snd (cycle (with_speech g env) user_id audio w)))
     = difficulty (session (snd (cycle env user_id audio w)))
  /\ mastery_score (session (snd (cycle (with_speech g env) user_id audio w)))
     = mastery_score (session (snd (cycle env user_id audio w)))
  /\ store (snd (cycle (with_speech g env) user_id audio w))
     = store (snd (cycle env user_id audio w)).
Proof.
  destruct audio as [b|]; [|simpl; auto 10].
  destruct (client env) eqn:Hc.
  2:{ rewrite (cycle_no_client env _ _ _ Hc).
      rewrite (cycle_no_client (with_speech g env) _ _ _ Hc). simpl. auto 10. }
  pose proof (cycle_runs_to_an_end env user_id b w Hc) as Hend.
  destruct (cycle_ends_with_speech g _ _ _ _ _ _ Hend)
    as (w'' & Hend' & Hh & Ht & Hd & Hm & Hs).
  rewrite (cycle_ends_is_the_cycle (with_speech g env) _ _ _ _ _ Hc Hend').
  simpl. auto 10.
Qed.

(** [X12] Replies that lack a key leave a half-done cycle.  When the plan
    names a next topic and [plan["difficulty"]] raises, the cycle raises
    with the topic already replaced and the difficulty not.  When the
    evaluation has a score and no feedback, [KeyError] is raised only at
    the composition of the tutor's turn: the score is set, the entry is
    written, topic and difficulty are replaced, and the history ends with
    the learner's turn, no tutor turn and the old audio. *)
Theorem replies_lacking_a_key_leave_a_half_done_cycle
    (env : Env) (user_id : option Z) (b : bytes) (w : World) (heard : pyval)
    (ev : list (string * pyval)) (score : pyval) (st' : Store) :
  transcribed env b heard ->
  graded env heard (current_topic (session w)) ev score ->
  persisted env user_id score w (Ok tt) st' ->
  (forall next_topic e,
     level_missing env score (current_topic (session w)) next_topic e ->
     exists w',
       cycle env user_id (Some b) w = (Raise e, w')
       /\ current_topic (session w') = next_topic
       /\ difficulty (session w') = difficulty (session w)
       /\ mastery_score (session w') = score
       /\ history (session w') = (history (session w) ++ [learner_turn heard])%list
       /\ store w' = st')
  /\ (forall next_topic next_level lesson,
        planned env score (current_topic (session w)) next_topic next_level ->
        taught env next_topic next_level lesson ->
        dict_get "feedback" ev = None ->
        exists w',
          cycle env user_id (Some b) w = (Raise (KeyError "feedback"), w')
          /\ current_topic (session w') = next_topic
          /\ difficulty (session w') = next_level
          /\ mastery_score (session w') = score
          /\ history (session w')
             = (history (session w) ++ [learner_turn heard])%list
          /\ last_audio (session w') = last_audio (session w)
          /\ store w' = st').
Proof.
  intros Hh Hg Hp. split.
  - intros nt e Hlv. eexists. split.
    + eapply cycle_level_missing; eauto.
    + simpl. auto 10.
  - intros nt nl lesson Hpl Hl Hf. eexists. split.
    + eapply cycle_feedback_missing; eauto.
    + simpl. auto 10.
Qed.

Lemma replies_lacking_a_key_leave_a_half_done_cycle_witness :
  (exists w',
     cycle topic_only_env (Some 1) (Some recording) student_world
       = (Raise (KeyError "difficulty"), w')
     /\ current_topic (session w') = PStr "Loops"
     /\ difficulty (session w') = PStr "Beginner"
     /\ mastery_score (session w') = PInt 80
     /\ history (session w')
        = [first_lesson; learner_turn answer_heard]
     /\ store w'
        = snd (save_progress 1 (PStr "Python Basics") (PStr "Beginner")
                 (PInt 80) "2024-05-01 10:00:00" student_store))
  /\ (exists w',
        cycle score_only_env (Some 1) (Some recording) student_world
          = (Raise (KeyError "feedback"), w')
        /\ current_topic (session w') = PStr "Loops"
        /\ difficulty (session w') = PStr "Intermediate"
        /\ mastery_score (session w') = PInt 80
        /\ history (session w')
           = [first_lesson; learner_turn answer_heard]
        /\ last_audio (session w') = Some mp3_bytes
        /\ store w'
           = snd (save_progress 1 (PStr "Python Basics") (PStr "Beginner")
                    (PInt 80) "2024-05-01 10:00:00" student_store)).
Proof.
  split.
  - apply (proj1 (replies_lacking_a_key_leave_a_half_done_cycle
                    topic_only_env (Some 1) recording student_world answer_heard
                    [("score", PInt 80); ("feedback", PStr "Good")] (PInt 80)
                    (snd (save_progress 1 (PStr "Python Basics")
                            (PStr "Beginner") (PInt 80) "2024-05-01 10:00:00"
                            student_store))
                    ltac:(split; [reflexivity|]; split; [|reflexivity];
                          exists (Some "A variable stores a value");
                          split; reflexivity)
                    ltac:(split; reflexivity)
                    ltac:(reflexivity))
             (PStr "Loops") (KeyError "difficulty")).
    split; reflexivity.
  - apply (proj2 (replies_lacking_a_key_leave_a_half_done_cycle
                    score_only_env (Some 1) recording student_world answer_heard
                    [("score", PInt 80)] (PInt 80)
                    (snd (save_progress 1 (PStr "Python Basics")
                            (PStr "Beginner") (PInt 80) "2024-05-01 10:00:00"
                            student_store))
                    ltac:(split; [reflexivity|]; split; [|reflexivity];
                          exists (Some "A variable stores a value");
                          split; reflexivity)
                    ltac:(split; reflexivity)
                    ltac:(reflexivity))
             (PStr "Loops") (PStr "Intermediate") (PStr loops_lesson)).
    + exists [("next_topic", PStr "Loops"); ("difficulty", PStr "Intermediate")].
      split; [|split]; reflexivity.
    + exists (Some loops_lesson). split; reflexivity.
    + reflexivity.
Defined.

(** ** The greeting and the sidebar *)

Lemma greeting_skipped env w :
  list_truthy (history (session w)) = true \/ client env = false ->
  greeting env w = (Ok tt, w).
Proof.
  intros H. unfold greeting. step.
  destruct H as [-> | ->]; [reflexivity|].
  destruct (list_truthy (history (session w))); reflexivity.
Qed.

Lemma greeting_raises env w e :
  history (session w) = [] -> client env = true ->
  generate_text env (tutor_prompt (current_topic (session w))
                                  (difficulty (session w))) = Raise e ->
  greeting env w = (Raise e, w).
Proof.
  intros Hh Hc Ht. unfold greeting. step. rewrite Hh, Hc. simpl.
  step. step. stop. reflexivity.
Qed.

Lemma greeting_greets env w t :
  history (session w) = [] -> client env = true ->
  generate_text env (tutor_prompt (current_topic (session w))
                                  (difficulty (session w))) = Ok t ->
  greeting env w =
    (Ok tt,
     mk_world
       (mk_session [mk_message "assistant" (text_val t)]
          (current_topic (session w)) (difficulty (session w))
          (mastery_score (session w)) (spoken env (text_val t)))
       (store w)).
Proof.
  intros Hh Hc Ht. unfold greeting. step. rewrite Hh, Hc. simpl.
  repeat step. rewrite on_session_run. norm. rewrite Hh. reflexivity.
Qed.

(** [X13] The greeting happens once.  With turns in the history or without
    a client the greeting does nothing.  On an empty history with a client
    it asks the tutor for the current topic and difficulty: if the request
    raises, the world is as it was; if it returns, the history is the one
    turn of the tutor, [None] included when the reply has no text, the
    audio is what gTTS made of it or [None], topic, difficulty, score and
    store are untouched, and a greeting run again does nothing. *)
Theorem greeting_happens_once (env : Env) (w : World) :
  (history (session w) <> [] \/ client env = false ->
   greeting env w = (Ok tt, w))
  /\ (forall e,
        history (session w) = [] -> client env = true ->
        generate_text env (tutor_prompt (current_topic (session w))
                                        (difficulty (session w))) = Raise e ->
        greeting env w = (Raise e, w))
  /\ (forall t,
        history (session w) = [] -> client env = true ->
        generate_text env (tutor_prompt (current_topic (session w))
                                        (difficulty (session w))) = Ok t ->
        exists w',
          greeting env w = (Ok tt, w')
          /\ history (session w') = [mk_message "assistant" (text_val t)]
          /\ last_audio (session w') = spoken env (text_val t)
          /\ current_topic (session w') = current_topic (session w)
          /\ difficulty (session w') = difficulty (session w)
          /\ mastery_score (session w') = mastery_score (session w)
          /\ store w' = store w
          /\ greeting env w' = (Ok tt, w')).
Proof.
  split; [|split].
  - intros [Hh|Hc]; apply greeting_skipped; [left|right; exact Hc].
    destruct (history (session w)); [congruence|reflexivity].
  - intros e. apply greeting_raises.
  - intros t Hh Hc Ht. eexists.
    split; [apply (greeting_greets _ _ t); assumption|].
    simpl. split; [reflexivity|]. split; [reflexivity|].
    split; [reflexivity|]. split; [reflexivity|]. split; [reflexivity|].
    split; [reflexivity|]. apply greeting_skipped. left. reflexivity.
Qed.

(** The first run of the scenario, and a tutor without text. *)
Lemma greeting_happens_once_witness :
  (exists w',
     greeting (scenario_env 80) new_world = (Ok tt, w')
     /\ history (session w') = [mk_message "assistant" (PStr loops_lesson)]
     /\ last_audio (session w') = Some mp3_bytes
     /\ current_topic (session w') = PStr "Python Basics"
     /\ difficulty (session w') = PStr "Beginner"
     /\ mastery_score (session w') = PInt 0
     /\ store w' = store new_world
     /\ greeting (scenario_env 80) w' = (Ok tt, w'))
  /\ greeting (scenario_env 80) student_world = (Ok tt, student_world).
Proof.
  destruct (greeting_happens_once (scenario_env 80) new_world)
    as (_ & _ & Hgreet).
  split.
  - apply (Hgreet (Some loops_lesson)); reflexivity.
  - apply (proj1 (greeting_happens_once (scenario_env 80) student_world)).
    left. discriminate.
Defined.

Lemma on_store_run {A} (m : M Store A) w :
  on_store m w = (fst (m (store w)), mk_world (session w) (snd (m (store w)))).
Proof. unfold on_store. destruct (m (store w)); reflexivity. Qed.

Lemma greeting_store env w : store (snd (greeting env w)) = store w.
Proof.
  destruct (list_truthy (history (session w))) eqn:Hh.
  { rewrite greeting_skipped; auto. }
  destruct (client env) eqn:Hc.
  2:{ rewrite greeting_skipped; auto. }
  assert (Hnil : history (session w) = []).
  { destruct (history (session w)); [reflexivity|discriminate]. }
  destruct (generate_text env (tutor_prompt (current_topic (session w))
                                            (difficulty (session w))))
    as [t|e] eqn:Ht.
  - rewrite (greeting_greets _ _ _ Hnil Hc Ht). reflexivity.
  - rewrite (greeting_raises _ _ _ Hnil Hc Ht). reflexivity.
Qed.

(** The key a login returned on a well-formed store. *)
Lemma login_key name now st uid st' :
  store_wf st ->
  get_or_create_user name now st = (Ok uid, st') ->
  1 <= uid <= int64_max.
Proof.
  intros Hwf Hcall. apply get_or_create_user_cases in Hcall.
  destruct Hcall as (db & Ho & [(r & Hf & -> & _)|(_ & Hn & _)]).
  - destruct (open_db_inv _ _ Ho) as [_ Hfile].
    apply find_some in Hf. destruct Hf as [Hin _].
    eapply wf_user_key; eauto.
  - apply next_rowid_fresh in Hn. tauto.
Qed.

(** After a login that returned, the store opens. *)
Lemma login_leaves_store_open name now st uid st' :
  get_or_create_user name now st = (Ok uid, st') ->
  exists db', open_db st' = Ok db'.
Proof.
  intros H. destruct (get_or_create_user_registered _ _ _ _ _ H)
    as (db' & _ & Ho & _). eauto.
Qed.

Lemma sidebar_run now name w :
  name <> "" ->
  sidebar now name w =
    match get_or_create_user name now (store w) with
    | (Ok uid, st') =>
        (match fst (get_user_stats uid st') with
         | Ok _ => Ok (Some uid)
         | Raise e => Raise e
         end, mk_world (session w) st')
    | (Raise e, st') => (Raise e, mk_world (session w) st')
    end.
Proof.
  intros Hne. unfold sidebar.
  assert (Ht : truthy (PStr name) = true).
  { simpl. destruct (String.eqb name "") eqn:E; [|reflexivity].
    apply String.eqb_eq in E. contradiction. }
  rewrite Ht. unfold bind. rewrite on_store_run.
  destruct (get_or_create_user name now (store w)) as [[uid|e] st']; simpl;
    [|reflexivity].
  rewrite on_store_run. simpl. rewrite get_user_stats_unchanged.
  destruct (fst (get_user_stats uid st')); reflexivity.
Qed.

(** [X14] The sidebar.  With an empty name nobody is logged in and the
    database is not touched, reachable or not.  The sidebar never changes
    the session.  When it returns a user id, the name was not empty and
    the id is the id of the row of [users] with that name.  On a
    well-formed store that opens it returns a user id for every non-empty
    name that is registered or for which the key of [users] has room. *)
Theorem sidebar_logs_in (now : string) (w : World) :
  sidebar now "" w = (Ok None, w)
  /\ (forall name, session (snd (sidebar now name w)) = session w)
  /\ (forall name uid w',
        sidebar now name w = (Ok (Some uid), w') ->
        name <> ""
        /\ exists r, In r (users_of (store w'))
                     /\ user_name r = name /\ user_id r = uid)
  /\ (forall name db,
        name <> "" ->
        store_wf (store w) ->
        open_db (store w) = Ok db ->
        In name (map user_name (users db)) \/ users_have_room db ->
        exists uid w', sidebar now name w = (Ok (Some uid), w')).
Proof.
  split; [reflexivity|]. split; [|split].
  - intros name. destruct (string_dec name "") as [->|Hne]; [reflexivity|].
    rewrite (sidebar_run _ _ _ Hne).
    destruct (get_or_create_user name now (store w)) as [[uid|e] st'];
      reflexivity.
  - intros name uid w' Hside.
    destruct (string_dec name "") as [->|Hne]; [discriminate|].
    split; [exact Hne|]. rewrite (sidebar_run _ _ _ Hne) in Hside.
    destruct (get_or_create_user name now (store w)) as [[uid0|e] st'] eqn:Hcall;
      [|discriminate].
    destruct (fst (get_user_stats uid0 st')); [|discriminate].
    inversion Hside; subst. simpl.
    eapply get_or_create_user_row; eauto.
  - intros name db Hne Hwf Ho Hcase. rewrite (sidebar_run _ _ _ Hne).
    assert (Hcall : exists uid st',
              get_or_create_user name now (store w) = (Ok uid, st')).
    { destruct (find (named name) (users db)) as [r|] eqn:Hf.
      - eexists; eexists. eapply get_or_create_user_found; eauto.
      - destruct Hcase as [Hin|Hroom].
        + apply in_names_find in Hin. destruct Hin as [r Hr].
          rewrite Hf in Hr. discriminate.
        + eexists; eexists. eapply get_or_create_user_new; eauto. }
    destruct Hcall as (uid & st' & Hcall). rewrite Hcall.
    destruct (login_leaves_store_open _ _ _ _ _ Hcall) as [db' Ho'].
    pose proof (login_key _ _ _ _ _ Hwf Hcall) as Hkey.
    rewrite (get_user_stats_open _ _ _ Ho' (in_int64_key _ Hkey)). simpl.
    eauto.
Qed.

(** Ada logs in on Student's database. *)
Lemma sidebar_logs_in_witness :
  exists uid w',
    sidebar "2024-05-01 10:00:10" "Ada" student_world = (Ok (Some uid), w').
Proof.
  destruct (sidebar_logs_in "2024-05-01 10:00:10" student_world)
    as (_ & _ & _ & Hlogin).
  apply (Hlogin "Ada" student_db).
  - discriminate.
  - exact student_store_wf.
  - reflexivity.
  - right. unfold users_have_room; simpl. reflexivity.
Defined.

(** ** A whole run of the script *)

Lemma grows_refl st : grows st st.
Proof.
  split; [reflexivity|]. split; exists []; rewrite app_nil_r; reflexivity.
Qed.

Lemma grows_trans st1 st2 st3 : grows st1 st2 -> grows st2 st3 -> grows st1 st3.
Proof.
  intros (Hr1 & (us1 & Hu1) & (ls1 & Hl1)) (Hr2 & (us2 & Hu2) & (ls2 & Hl2)).
  split; [congruence|]. split.
  - exists (us1 ++ us2)%list. rewrite Hu2, Hu1, app_assoc. reflexivity.
  - exists (ls1 ++ ls2)%list. rewrite Hl2, Hl1, app_assoc. reflexivity.
Qed.

Lemma init_db_grows st : grows st (snd (init_db st)).
Proof.
  unfold init_db. destruct (reachable st) eqn:Hr; [|apply grows_refl].
  destruct (file st) eqn:Hf; [apply grows_refl|].
  split; [simpl; auto|]. unfold users_of, logs_of. rewrite Hf. simpl.
  split; exists []; reflexivity.
Qed.

Lemma init_db_keeps_references st :
  store_references st -> store_references (snd (init_db st)).
Proof.
  unfold init_db, store_references. destruct (reachable st); simpl; auto.
  destruct (file st) eqn:Hf; simpl; [rewrite Hf; auto|].
  intros _. constructor.
Qed.

Lemma get_or_create_user_grows name now st :
  grows st (snd (get_or_create_user name now st)).
Proof.
  destruct (get_or_create_user name now st) as [[uid|e] st'] eqn:Hcall; simpl.
  - apply get_or_create_user_cases in Hcall.
    destruct Hcall as (db & Ho & [(r & _ & _ & ->)|(_ & _ & ->)]);
      [apply grows_refl|].
    destruct (open_db_inv _ _ Ho) as [_ Hfile].
    split; [reflexivity|]. unfold users_of, logs_of. rewrite Hfile. simpl.
    split; [eauto|]. exists []. rewrite app_nil_r. reflexivity.
  - apply get_or_create_user_raises_unchanged in Hcall. subst. apply grows_refl.
Qed.

Lemma get_or_create_user_keeps_references name now st :
  store_references st ->
  store_references (snd (get_or_create_user name now st)).
Proof.
  intros Href.
  destruct (get_or_create_user name now st) as [[uid|e] st'] eqn:Hcall; simpl.
  - apply get_or_create_user_cases in Hcall.
    destruct Hcall as (db & Ho & [(r & _ & _ & ->)|(_ & _ & ->)]);
      [exact Href|].
    destruct (open_db_inv _ _ Ho) as [_ Hfile].
    unfold store_references in *. rewrite Hfile in Href. simpl.
    unfold logs_reference_users in *. simpl.
    eapply Forall_impl; [|exact Href]. simpl. intros r Hr.
    rewrite map_app. apply in_or_app. left. exact Hr.
  - apply get_or_create_user_raises_unchanged in Hcall. subst. exact Href.
Qed.

Lemma save_progress_grows uid topic level score now st :
  grows st (snd (save_progress uid topic level score now st)).
Proof.
  destruct (save_progress uid topic level score now st) as [[[]|e] st'] eqn:H;
    simpl.
  - apply save_progress_cases in H.
    destruct H as (db & id & t & d & s & Ho & _ & _ & _ & _ & _ & ->).
    destruct (open_db_inv _ _ Ho) as [_ Hfile].
    split; [reflexivity|]. unfold users_of, logs_of. rewrite Hfile. simpl.
    split; [|eauto]. exists []. rewrite app_nil_r. reflexivity.
  - apply save_progress_raises_unchanged in H. subst. apply grows_refl.
Qed.

Lemma save_progress_keeps_references uid topic level score now st :
  In uid (map user_id_of_row (users_of st)) ->
  store_references st ->
  store_references (snd (save_progress uid topic level score now st)).
Proof.
  intros Hin Href.
  destruct (save_progress uid topic level score now st) as [[[]|e] st'] eqn:H;
    simpl.
  - apply save_progress_cases in H.
    destruct H as (db & id & t & d & s & Ho & _ & _ & _ & _ & _ & ->).
    destruct (open_db_inv _ _ Ho) as [_ Hfile].
    unfold store_references, users_of in *. rewrite Hfile in Href, Hin. simpl.
    unfold logs_reference_users in *. simpl.
    rewrite Forall_app. split; [exact Href|].
    constructor; [exact Hin|constructor].
  - apply save_progress_raises_unchanged in H. subst. exact Href.
Qed.

Lemma establishes_bind {A B} pre (m : M World A) post inv
      (k : A -> M World B) post' :
  establishes pre m post inv ->
  (forall a, establishes (post a) (k a) post' inv) ->
  establishes pre (bind m k) post' inv.
Proof.
  intros Hm Hk w Hpre. unfold bind. specialize (Hm w Hpre).
  destruct (m w) as [[a|e] w']; [|exact Hm].
  apply (Hk a w' Hm).
Qed.

Section Run.

Variables (env : Env) (st0 : Store).

Lemma init_db_step :
  establishes (kept st0) (on_store init_db) (fun _ => kept st0) (kept st0).
Proof.
  intros w ((Hwf & Href) & Hg). rewrite on_store_run.
  assert (Hk : kept st0 (mk_world (session w) (snd (init_db (store w))))).
  { split; [split|]; simpl.
    - apply init_db_keeps_wf. exact Hwf.
    - apply init_db_keeps_references. exact Href.
    - eapply grows_trans; [exact Hg|apply init_db_grows]. }
  destruct (fst (init_db (store w))); exact Hk.
Qed.

Lemma sidebar_step now name :
  establishes (kept st0) (sidebar now name)
              (fun uid w => kept st0 w /\ logged_in uid w) (kept st0).
Proof.
  intros w Hk. destruct (string_dec name "") as [->|Hne].
  { simpl. split; [exact Hk|]. intros uid H; discriminate. }
  rewrite (sidebar_run _ _ _ Hne).
  destruct Hk as ((Hwf & Href) & Hg).
  assert (Hk : kept st0 (mk_world (session w)
                       (snd (get_or_create_user name now (store w))))).
  { split; [split|]; simpl.
    - apply get_or_create_user_keeps_wf. exact Hwf.
    - apply get_or_create_user_keeps_references. exact Href.
    - eapply grows_trans; [exact Hg|apply get_or_create_user_grows]. }
  destruct (get_or_create_user name now (store w)) as [[uid|e] st'] eqn:Hcall;
    [|exact Hk].
  simpl in Hk. destruct (fst (get_user_stats uid st')); [|exact Hk].
  split; [exact Hk|]. intros uid' Huid. inversion Huid; subst uid'. simpl.
  destruct (get_or_create_user_row _ _ _ _ _ Hcall) as (r & Hin & _ & Hid).
  rewrite <- Hid. apply (in_map user_id_of_row). exact Hin.
Qed.

Lemma greeting_step user_id :
  establishes (fun w => kept st0 w /\ logged_in user_id w) (greeting env)
              (fun _ w => kept st0 w /\ logged_in user_id w) (kept st0).
Proof.
  intros w (((Hwf & Href) & Hg) & Hl).
  pose proof (greeting_store env w) as Hs.
  destruct (greeting env w) as [[[]|e] w'] eqn:Hgreet; simpl in Hs.
  - unfold kept, sound, logged_in. rewrite Hs. auto.
  - unfold kept, sound. rewrite Hs. auto.
Qed.

Lemma cycle_step user_id audio :
  establishes (fun w => kept st0 w /\ logged_in user_id w)
              (cycle env user_id audio) (fun _ => kept st0) (kept st0).
Proof.
  intros w (((Hwf & Href) & Hg) & Hl).
  assert (Hk : kept st0 (snd (cycle env user_id audio w))).
  { destruct (cycle_store env user_id audio w)
      as [Hs|(uid & topic & level & score & Hu & _ & Hsave)].
    - unfold kept, sound. rewrite Hs. auto.
    - assert (Hst : store (snd (cycle env user_id audio w))
                    = snd (save_progress uid topic level score (clock env)
                             (store w))) by (rewrite Hsave; reflexivity).
      unfold kept, sound. rewrite Hst. split; [split|].
      + apply save_progress_keeps_wf. exact Hwf.
      + apply save_progress_keeps_references; [|exact Href].
        apply Hl. exact Hu.
      + eapply grows_trans; [exact Hg|apply save_progress_grows]. }
  destruct (cycle env user_id audio w) as [[[]|e] w']; exact Hk.
Qed.

Lemma script_run_step login_time username audio :
  establishes (kept st0) (script_run env login_time username audio)
              (fun _ => kept st0) (kept st0).
Proof.
  unfold script_run.
  eapply establishes_bind; [apply init_db_step|]. intros u0. cbv beta.
  eapply establishes_bind; [apply sidebar_step|]. intros user_id. cbv beta.
  eapply establishes_bind; [apply greeting_step|]. intros u1. cbv beta.
  apply cycle_step.
Qed.

End Run.

(** [X15] A run of the script keeps the database sound and never removes
    a row.  Whatever name is given, whatever was recorded, whatever the
    collaborators answer and whether the run returns or raises: a
    well-formed store whose entries all reference a user is again such a
    store after the run, its [users] and [logs] are the tables before with
    rows added at the end, and the store is as reachable as before. *)
Theorem script_run_keeps_the_store_sound
    (env : Env) (login_time username : string) (audio : option bytes)
    (w : World) :
  store_wf (store w) ->
  store_references (store w) ->
  store_wf (store (snd (script_run env login_time username audio w)))
  /\ store_references (store (snd (script_run env login_time username audio w)))
  /\ grows (store w) (store (snd (script_run env login_time username audio w))).
Proof.
  intros Hwf Href.
  pose proof (script_run_step env (store w) login_time username audio w) as H.
  assert (Hpre : sound w /\ grows (store w) (store w)).
  { split; [split; assumption|apply grows_refl]. }
  specialize (H Hpre).
  destruct (script_run env login_time username audio w) as [[[]|e] w'];
    simpl; destruct H as ((H1 & H2) & H3); auto.
Qed.

(** The first run of the scenario on a new database file. *)
Lemma script_run_keeps_the_store_sound_witness :
  store_wf (store (snd (script_run (scenario_env 80) "2024-05-01 09:59:00"
                          "Student" (Some recording) new_world)))
  /\ store_references
       (store (snd (script_run (scenario_env 80) "2024-05-01 09:59:00"
                      "Student" (Some recording) new_world)))
  /\ grows (store new_world)
       (store (snd (script_run (scenario_env 80) "2024-05-01 09:59:00"
                      "Student" (Some recording) new_world))).
Proof.
  apply (script_run_keeps_the_store_sound (scenario_env 80)
           "2024-05-01 09:59:00" "Student" (Some recording) new_world).
  - exact I.
  - exact I.
Defined.
